(** * LiveTabs: the tab/content association model

    A shallow embedding of [src/LiveTabs.ts] (class [LiveTabs]): the ordered
    [tabContentMap], the [openedId] field, the optional capacity
    [maxNumTabs], and the part of the page the class reads and writes
    (the navbar's children, the host container's other children, the
    console and [alert]).  Every method is a function from state to state. *)

From Stdlib Require Import List String Ascii ZArith NArith Bool Lia.
Import ListNotations.
Local Open Scope string_scope.
Local Open Scope list_scope.

(** ** JavaScript values used by the class *)

Module Js.

(** [if (s)] on a string: every string but the empty one is truthy. *)
Definition truthy (s : string) : bool := negb (String.eqb s "").

(** [if (n)] on a number, taken to be an integer: only [0] is falsy. *)
Definition truthy_num (n : Z) : bool := negb (Z.eqb n 0).

(** A [string | undefined] passed where the DOM expects a string
    ([document.getElementById(contentId!)]): [undefined] is converted to
    the string ["undefined"]. *)
Definition to_DOMString (o : option string) : string :=
  match o with
  | Some s => s
  | None => "undefined"
  end.

Definition in_range (lo hi : N) (c : ascii) : bool :=
  (N.leb lo (N_of_ascii c) && N.leb (N_of_ascii c) hi)%bool.

(** The complement of the class [[^a-zA-Z0-9]]. *)
Definition is_alnum (c : ascii) : bool :=
  (in_range 48 57 c || in_range 65 90 c || in_range 97 122 c)%bool.

(** [s.replace(/[^a-zA-Z0-9]/g, '')].  A title is held as its bytes; a
    character outside ASCII has every byte above 127, so it is dropped
    here exactly as its UTF-16 units are dropped by the regular
    expression. *)
Fixpoint strip_non_alnum (s : string) : string :=
  match s with
  | EmptyString => EmptyString
  | String c r =>
      if is_alnum c then String c (strip_non_alnum r) else strip_non_alnum r
  end.

Definition lower (c : ascii) : ascii :=
  if in_range 65 90 c then ascii_of_N (N_of_ascii c + 32) else c.

(** [s.toLowerCase()] on the ASCII letters, which is all it meets after
    [strip_non_alnum]. *)
Fixpoint toLowerCase (s : string) : string :=
  match s with
  | EmptyString => EmptyString
  | String c r => String (lower c) (toLowerCase r)
  end.

(** [s.replace(pat, rep)] with a string pattern: the first occurrence
    only. *)
Fixpoint replace (pat rep s : string) : string :=
  if String.prefix pat s
  then String.append rep
         (String.substring (String.length pat)
            (String.length s - String.length pat) s)
  else match s with
       | EmptyString => EmptyString
       | String c r => String c (replace pat rep r)
       end.

(** [arr.indexOf(x)]: position of the first occurrence, or [-1]. *)
Fixpoint indexOf (arr : list string) (x : string) : Z :=
  match arr with
  | [] => (-1)%Z
  | y :: r =>
      if String.eqb y x then 0%Z
      else let i := indexOf r x in
           if Z.ltb i 0 then (-1)%Z else (i + 1)%Z
  end.

(** [arr[i]]: [undefined] outside the array, also for a negative [i]. *)
Definition index (arr : list string) (i : Z) : option string :=
  if Z.ltb i 0 then None else nth_error arr (Z.to_nat i).

End Js.

(** ** The built-in [Map<string, string>]

    Entries are kept in insertion order; [set] on a present key keeps its
    place, [delete] keeps the order of the others. *)

Module JsMap.

Definition t := list (string * string).

Definition empty : t := [].

Definition has (m : t) (k : string) : bool :=
  existsb (fun e => String.eqb (fst e) k) m.

Fixpoint get (m : t) (k : string) : option string :=
  match m with
  | [] => None
  | (k', v) :: r => if String.eqb k' k then Some v else get r k
  end.

Fixpoint set (m : t) (k v : string) : t :=
  match m with
  | [] => [(k, v)]
  | (k', v') :: r =>
      if String.eqb k' k then (k', v) :: r else (k', v') :: set r k v
  end.

Definition delete (m : t) (k : string) : t :=
  filter (fun e => negb (String.eqb (fst e) k)) m.

Definition keys (m : t) : list string := map fst m.

Definition size (m : t) : nat := List.length m.

End JsMap.

(** ** The page

    Only what the class reaches: the children of the navbar it created and
    the other children of the host container (the content panels are
    appended there), in document order.  The navbar is prepended to the host
    container, so its children come first in a search by id.  Elements of
    the page outside the host container are not represented, and neither
    are the host container and the navbar as elements of their own: a
    search by id is taken not to ask for their ids. *)

Record element := mkElement {
  el_id : string;
  el_text : string;
  el_display : string;     (* style.display, [""] when never set *)
  el_active : bool;        (* class 'active' present *)
  el_closeButton : bool;   (* has the close button child *)
  el_draggable : bool
}.

Inductive event :=
| Alert (msg : string)
| ConsoleWarn (msg : string)
| ConsoleError (msg : string).

Record state := mkState {
  parentDiv : string;
  navbarDiv : option (list element);   (* [None]: undefined, host container not found *)
  maxNumTabs : option Z;               (* [None]: undefined; else an integer *)
  openedId : string;
  tabContentMap : JsMap.t;
  hostChildren : list element;
  console : list event
}.

Definition with_navbarDiv (st : state) (n : option (list element)) : state :=
  mkState (parentDiv st) n (maxNumTabs st) (openedId st) (tabContentMap st)
    (hostChildren st) (console st).

Definition with_maxNumTabs (st : state) (n : option Z) : state :=
  mkState (parentDiv st) (navbarDiv st) n (openedId st) (tabContentMap st)
    (hostChildren st) (console st).

Definition with_openedId (st : state) (id : string) : state :=
  mkState (parentDiv st) (navbarDiv st) (maxNumTabs st) id (tabContentMap st)
    (hostChildren st) (console st).

Definition with_tabContentMap (st : state) (m : JsMap.t) : state :=
  mkState (parentDiv st) (navbarDiv st) (maxNumTabs st) (openedId st) m
    (hostChildren st) (console st).

Definition with_hostChildren (st : state) (l : list element) : state :=
  mkState (parentDiv st) (navbarDiv st) (maxNumTabs st) (openedId st)
    (tabContentMap st) l (console st).

Definition emit (st : state) (e : event) : state :=
  mkState (parentDiv st) (navbarDiv st) (maxNumTabs st) (openedId st)
    (tabContentMap st) (hostChildren st) (console st ++ [e]).

Module Dom.

Definition has_id (id : string) (e : element) : bool :=
  String.eqb (el_id e) id.

Definition set_display (d : string) (e : element) : element :=
  mkElement (el_id e) (el_text e) d (el_active e) (el_closeButton e)
    (el_draggable e).

Definition set_active (b : bool) (e : element) : element :=
  mkElement (el_id e) (el_text e) (el_display e) b (el_closeButton e)
    (el_draggable e).

(** Drop the first element carrying [id]. *)
Fixpoint remove_first (id : string) (l : list element) : list element :=
  match l with
  | [] => []
  | e :: r => if has_id id e then r else e :: remove_first id r
  end.

(** Apply [f] to the first element carrying [id]. *)
Fixpoint update_first (id : string) (f : element -> element)
    (l : list element) : list element :=
  match l with
  | [] => []
  | e :: r => if has_id id e then f e :: r else e :: update_first id f r
  end.

Definition children (st : state) : list element :=
  match navbarDiv st with
  | Some tabs => tabs
  | None => []
  end.


(** Run [act id] on the list that holds the first element carrying [id]. *)
Definition on_first (act : string -> list element -> list element)
    (id : string) (st : state) : state :=
  match navbarDiv st with
  | Some tabs =>
      if existsb (has_id id) tabs
      then with_navbarDiv st (Some (act id tabs))
      else with_hostChildren st (act id (hostChildren st))
  | None => with_hostChildren st (act id (hostChildren st))
  end.

(** [document.getElementById(id)?.remove()]. *)
Definition remove (id : string) (st : state) : state :=
  on_first remove_first id st.

(** [const e = document.getElementById(id); if (e) e.style.display = d]. *)
Definition display (id d : string) (st : state) : state :=
  on_first (fun i => update_first i (set_display d)) id st.

(** [document.getElementById(id)?.classList.add/remove('active')]. *)
Definition active (id : string) (b : bool) (st : state) : state :=
  on_first (fun i => update_first i (set_active b)) id st.

(** Ids of all represented elements, in document order. *)
Definition ids (st : state) : list string :=
  map el_id (children st ++ hostChildren st).

End Dom.

(** ** The class [LiveTabs] *)

(** The argument of [addTab].  The two flags default to [true] when left
    out.  [addContent] is host code: it receives the content id and may do
    anything to the state, including calling back into the class. *)
Record params := mkParams {
  tabTitle : string;
  showCloseButton : option bool;
  allowDragAndDrop : option bool;
  addContent : option (string -> state -> state)
}.

Definition or_default (o : option bool) (d : bool) : bool :=
  match o with
  | Some b => b
  | None => d
  end.

(** [createNavbar]: [host] is what [document.getElementById(parentDiv)]
    finds, given as the children the container already has.  The id is
    logged between double quotes. *)
Definition createNavbar (st : state) (host : option (list element)) : state :=
  match host with
  | None =>
      emit st (ConsoleError
        (String.append "Parent element with id "
           (String (ascii_of_nat 34)
              (String.append (parentDiv st)
                 (String (ascii_of_nat 34) " not found.")))))
  | Some existing =>
      with_hostChildren (with_navbarDiv st (Some [])) existing
  end.

Definition constructor (parent : string) (max : option Z)
    (host : option (list element)) : state :=
  createNavbar (mkState parent None max "" JsMap.empty [] []) host.

(** [switchTab] *)
Definition switchTab (st : state) (id : string) : state :=
  if String.eqb (openedId st) id then st
  else
    let st1 :=
      if Js.truthy (openedId st) then
        let previousContentId := JsMap.get (tabContentMap st) (openedId st) in
        let st' := Dom.display (Js.to_DOMString previousContentId) "none" st in
        Dom.active (openedId st) false st'
      else st in
    let activeContentId := JsMap.get (tabContentMap st1) id in
    let st2 := Dom.display (Js.to_DOMString activeContentId) "block" st1 in
    let st3 := Dom.active id true st2 in
    with_openedId st3 id.

(** [createTab]: the tab button, created with the class 'active'. *)
Definition createTab (title tabId : string) (close drag : bool) : element :=
  mkElement tabId title "" true close drag.

(** [navbarDiv?.appendChild(tab)] *)
Definition appendTab (st : state) (tab : element) : state :=
  match navbarDiv st with
  | Some tabs => with_navbarDiv st (Some (tabs ++ [tab]))
  | None => st
  end.

(** [createTabContent]: the panel is appended to the host container when
    that is found, which is when the navbar exists. *)
Definition createTabContent (st : state) (tabId : string) : state :=
  let tabContentDiv :=
    mkElement (String.append (Js.replace "lt-tab-" "" tabId) "-container")
      "" "block" false false false in
  match navbarDiv st with
  | Some _ => with_hostChildren st (hostChildren st ++ [tabContentDiv])
  | None => st
  end.

Definition sanitize (title : string) : string :=
  Js.toLowerCase (Js.strip_non_alnum title).

Definition tabId_of (title : string) : string :=
  String.append "lt-tab-" (sanitize title).

Definition contentId_of (title : string) : string :=
  String.append (sanitize title) "-container".

(** The guard [this.maxNumTabs && this.tabContentMap.size >= this.maxNumTabs]. *)
Definition capacity_reached (st : state) : bool :=
  match maxNumTabs st with
  | None => false
  | Some n =>
      (Js.truthy_num n && Z.geb (Z.of_nat (JsMap.size (tabContentMap st))) n)%bool
  end.

Definition capacity_alert : event :=
  Alert "Maximum number of tabs reached. Please close some tabs to continue.".

(** [addTab] *)
Definition addTab (st : state) (p : params) : state :=
  let showCloseButton := or_default (showCloseButton p) true in
  let allowDragAndDrop := or_default (allowDragAndDrop p) true in
  if capacity_reached st then emit st capacity_alert
  else
    let sanitizedId := sanitize (tabTitle p) in
    let tabId := String.append "lt-tab-" sanitizedId in
    if JsMap.has (tabContentMap st) tabId then switchTab st tabId
    else
      let tab := createTab (tabTitle p) tabId showCloseButton allowDragAndDrop in
      let st1 := appendTab st tab in
      let st2 := createTabContent st1 tabId in
      let idContent := String.append sanitizedId "-container" in
      let st3 := with_tabContentMap st2 (JsMap.set (tabContentMap st2) tabId idContent) in
      let st4 :=
        match addContent p with
        | Some callback => callback idContent st3
        | None => st3
        end in
      switchTab st4 tabId.

(** [reorderingMap]: the map is rebuilt from the navbar's children. *)
Definition reorderingMap (st : state) : state :=
  let tabs := Dom.children st in
  let newOrder :=
    fold_left
      (fun (newOrder : JsMap.t) (tab : element) =>
         let tabId := el_id tab in
         let contentId := JsMap.get (tabContentMap st) tabId in
         match contentId with
         | Some c => if Js.truthy c then JsMap.set newOrder tabId c else newOrder
         | None => newOrder
         end)
      tabs JsMap.empty in
  with_tabContentMap st newOrder.

Definition not_found_warning (idTab : string) : event :=
  ConsoleWarn (String.append "Tab not found in the tab-content map for ID: " idTab).

(** [removeTab] *)
Definition removeTab (st : state) (idTab : string) : state :=
  if negb (JsMap.has (tabContentMap st) idTab)
  then emit st (not_found_warning idTab)
  else
    let st1 := Dom.remove idTab st in
    let contentId := JsMap.get (tabContentMap st1) idTab in
    let st2 := Dom.remove (Js.to_DOMString contentId) st1 in
    let tabsArray := JsMap.keys (tabContentMap st2) in
    let st3 := with_tabContentMap st2 (JsMap.delete (tabContentMap st2) idTab) in
    if JsMap.has (tabContentMap st3) (openedId st3) then st3
    else if Nat.eqb (List.length tabsArray) 0 then with_openedId st3 ""
    else
      let removedTabIndex := Js.indexOf tabsArray idTab in
      let nextTabIndex :=
        if Z.ltb removedTabIndex (Z.of_nat (List.length tabsArray) - 1)
        then (removedTabIndex + 1)%Z
        else (removedTabIndex - 1)%Z in
      match Js.index tabsArray nextTabIndex with
      | Some switchToTabId =>
          if Js.truthy switchToTabId then switchTab st3 switchToTabId else st3
      | None => st3
      end.

(** [Map.prototype.forEach] walks the entry slots in insertion order and
    skips a slot whose entry was deleted in the meantime.  The callback
    below only deletes, so the slots are those present at the start and a
    slot is live exactly when its key is still in the map. *)
Fixpoint forEach (callback : string -> string -> state -> state)
    (slots : list string) (st : state) : state :=
  match slots with
  | [] => st
  | tabId :: rest =>
      match JsMap.get (tabContentMap st) tabId with
      | Some contentId => forEach callback rest (callback contentId tabId st)
      | None => forEach callback rest st
      end
  end.

(** [removeAllTabs] *)
Definition removeAllTabs (st : state) : state :=
  forEach (fun contentId tabId s => removeTab s tabId)
    (JsMap.keys (tabContentMap st)) st.

Definition getActiveTab (st : state) : string := openedId st.

Definition getAllTabs (st : state) : list string :=
  JsMap.keys (tabContentMap st).

Definition getTabCount (st : state) : nat := JsMap.size (tabContentMap st).

Definition setMaxTabs (st : state) (newMax : Z) : state :=
  with_maxNumTabs st (Some newMax).

(** [nextTab].  The index read is inside the array once the test has
    passed, so the [None] case is never met. *)
Definition nextTab (st : state) : state :=
  let tabsArray := getAllTabs st in
  let currentIndex := Js.indexOf tabsArray (openedId st) in
  if (negb (Z.eqb currentIndex (-1))
      && Z.ltb currentIndex (Z.of_nat (List.length tabsArray) - 1))%bool
  then
    match Js.index tabsArray (currentIndex + 1) with
    | Some nextTabId => switchTab st nextTabId
    | None => st
    end
  else emit st (ConsoleWarn "Currently on the last tab. No next tab available.").

(** [previousTab], with the same remark. *)
Definition previousTab (st : state) : state :=
  let tabsArray := getAllTabs st in
  let currentIndex := Js.indexOf tabsArray (openedId st) in
  if Z.gtb currentIndex 0
  then
    match Js.index tabsArray (currentIndex - 1) with
    | Some prevTabId => switchTab st prevTabId
    | None => st
    end
  else emit st (ConsoleWarn "Currently on the first tab. No previous tab available.").

(** ** Observations used by the statements *)

(** The tab ids as rendered, left to right. *)
Definition rendered (st : state) : list string :=
  map el_id (Dom.children st).

(** The ids of the host container's other children, the content panels
    among them. *)
Definition panel_ids (st : state) : list string :=
  map el_id (hostChildren st).

(** What [switchTab] does to the outgoing tab: hide its panel and drop
    its 'active' class. *)
Definition hide_previous (st : state) : state :=
  if Js.truthy (openedId st) then
    Dom.active (openedId st) false
      (Dom.display
         (Js.to_DOMString (JsMap.get (tabContentMap st) (openedId st)))
         "none" st)
  else st.

(** The map as the class builds it: a [Map] holds no key twice, and
    [addTab] stores no empty key and no empty content id. *)
Definition store_ok (m : JsMap.t) : Prop :=
  NoDup (JsMap.keys m) /\
  Forall (fun e => fst e <> "" /\ snd e <> "") m.

(** The host's [addContent] fills the panel and leaves the map alone. *)
Definition callback_keeps_store (p : params) : Prop :=
  match addContent p with
  | Some callback =>
      forall idContent s, tabContentMap (callback idContent s) = tabContentMap s
  | None => True
  end.

(** [addTab({tabTitle: t})] *)
Definition titled (t : string) : params := mkParams t None None None.

(** The state [removeTab] reaches once the elements and the entry are
    gone, before it looks at the focus. *)
Definition after_delete (st : state) (idTab : string) : state :=
  with_tabContentMap
    (Dom.remove (Js.to_DOMString (JsMap.get (tabContentMap st) idTab))
       (Dom.remove idTab st))
    (JsMap.delete (tabContentMap st) idTab).

Fixpoint distinctb (l : list string) : bool :=
  match l with
  | [] => true
  | x :: r => (negb (existsb (String.eqb x) r) && distinctb r)%bool
  end.

(** [store_ok] as a check that runs. *)
Definition store_okb (m : JsMap.t) : bool :=
  (distinctb (JsMap.keys m)
   && forallb (fun e => (Js.truthy (fst e) && Js.truthy (snd e))%bool) m)%bool.

(** A page with an empty host container, and three tabs added to it. *)
Definition page0 (max : option Z) : state :=
  constructor "tabs-container" max (Some []).

Definition tabsABC : state :=
  addTab (addTab (addTab (page0 None) (titled "A")) (titled "B")) (titled "C").

(** Capacity 2, two tabs added. *)
Definition twoOfTwo : state :=
  addTab (addTab (page0 (Some 2%Z)) (titled "A")) (titled "B").

(** One tab of the class in the navbar, and next to it an element the
    class never stored (a drop moves whatever element the drag payload
    names). *)
Definition strayTab : state :=
  with_navbarDiv (addTab (page0 None) (titled "A"))
    (Some [createTab "A" "lt-tab-a" true true;
           createTab "B" "lt-tab-b" true true]).

(** The entries of [m] named by [ids], in the order of [ids]. *)
Definition kept (m : JsMap.t) (ids : list string) : JsMap.t :=
  flat_map
    (fun id =>
       match JsMap.get m id with
       | Some c => [(id, c)]
       | None => []
       end)
    ids.

(** One tab, titled as in the dedup example. *)
Definition oneTab : state := addTab (page0 None) (titled "Tab 1").

(** [tabsABC] after drops that left [C], a foreign element and [A] in the
    navbar. *)
Definition shuffled : state :=
  with_navbarDiv tabsABC
    (Some [createTab "C" "lt-tab-c" true true;
           createTab "X" "lt-tab-x" true true;
           createTab "A" "lt-tab-a" true true]).

(** One call of a method of the class.  [addContent] callbacks are taken
    to leave the map alone. *)
Inductive step : state -> state -> Prop :=
| step_addTab st p : callback_keeps_store p -> step st (addTab st p)
| step_removeTab st id : step st (removeTab st id)
| step_removeAllTabs st : step st (removeAllTabs st)
| step_switchTab st id : step st (switchTab st id)
| step_nextTab st : step st (nextTab st)
| step_previousTab st : step st (previousTab st)
| step_setMaxTabs st n : step st (setMaxTabs st n)
| step_reorderingMap st : step st (reorderingMap st).

(** The alphabet of a sanitized id: [0-9] and [a-z]. *)
Definition is_lower_or_digit (c : ascii) : bool :=
  (Js.in_range 48 57 c || Js.in_range 97 122 c)%bool.

(** A title without a single letter or digit. *)
Definition no_alnum (t : string) : bool :=
  forallb (fun c => negb (Js.is_alnum c)) (list_ascii_of_string t).

(** An entry as [addTab] writes it: both ids come from one title. *)
Definition entry_shaped (e : string * string) : Prop :=
  exists t, fst e = tabId_of t /\ snd e = contentId_of t.

(** Tab ids and content ids in one-to-one correspondence. *)
Definition bijective_store (m : JsMap.t) : Prop :=
  NoDup (JsMap.keys m) /\ NoDup (map snd m) /\ Forall entry_shaped m.

(** Any number of calls, one after the other. *)
Inductive runs (R : state -> state -> Prop) : state -> state -> Prop :=
| runs_refl st : runs R st st
| runs_next st1 st2 st3 : runs R st1 st2 -> R st2 st3 -> runs R st1 st3.

(** ** The page as a mirror of the store *)



(** Each tab button carries the class 'active' as [f] says of its id. *)
Definition tabs_show (f : string -> bool) (tabs : list element) : Prop :=
  Forall (fun el => el_active el = f (el_id el)) tabs.




(** The host's [addContent] fills the panel, which the state kept here
    does not record, and does nothing else. *)
Definition callback_idle (p : params) : Prop :=
  match addContent p with
  | Some callback => forall idContent s, callback idContent s = s
  | None => True
  end.




(** ** Basic facts about the map and the page *)

Section StringFacts.

Lemma truthy_true (s : string) : Js.truthy s = true <-> s <> "".
Proof.
  unfold Js.truthy. rewrite negb_true_iff. apply String.eqb_neq.
Qed.

Lemma indexOf_app_fresh (pre post : list string) (x : string) :
  ~ In x pre ->
  Js.indexOf (pre ++ x :: post) x = Z.of_nat (List.length pre).
Proof.
  induction pre as [|y pre IH]; intros Hfresh.
  - simpl. now rewrite String.eqb_refl.
  - cbn [app Js.indexOf List.length].
    destruct (String.eqb y x) eqn:E.
    + apply String.eqb_eq in E. subst. exfalso. apply Hfresh. now left.
    + rewrite IH by (intros Hin; apply Hfresh; now right).
      destruct (Z.ltb_spec (Z.of_nat (List.length pre)) 0); lia.
Qed.

Lemma index_of_nat (arr : list string) (i : nat) :
  Js.index arr (Z.of_nat i) = nth_error arr i.
Proof.
  unfold Js.index.
  destruct (Z.ltb_spec (Z.of_nat i) 0); [lia|].
  now rewrite Nat2Z.id.
Qed.

(** The index [removeTab] computes, when a tab follows the removed one. *)
Lemma focus_target_next (xs ys : list string) (k k' : string) :
  ~ In k xs ->
  Js.index (xs ++ k :: k' :: ys)
    (if Z.ltb (Js.indexOf (xs ++ k :: k' :: ys) k)
          (Z.of_nat (List.length (xs ++ k :: k' :: ys)) - 1)
     then (Js.indexOf (xs ++ k :: k' :: ys) k + 1)%Z
     else (Js.indexOf (xs ++ k :: k' :: ys) k - 1)%Z)
  = Some k'.
Proof.
  intros Hfresh. rewrite (indexOf_app_fresh _ _ _ Hfresh), length_app.
  cbn [List.length].
  destruct (Z.ltb_spec (Z.of_nat (List.length xs))
              (Z.of_nat (List.length xs + S (S (List.length ys))) - 1)); [|lia].
  replace (Z.of_nat (List.length xs) + 1)%Z
    with (Z.of_nat (S (List.length xs))) by lia.
  rewrite index_of_nat, nth_error_app2 by lia.
  replace (S (List.length xs) - List.length xs) with 1 by lia. reflexivity.
Qed.

(** The same index when the removed tab is the last one. *)
Lemma focus_target_previous (xs : list string) (k k' : string) :
  ~ In k (xs ++ [k']) ->
  Js.index ((xs ++ [k']) ++ [k])
    (if Z.ltb (Js.indexOf ((xs ++ [k']) ++ [k]) k)
          (Z.of_nat (List.length ((xs ++ [k']) ++ [k])) - 1)
     then (Js.indexOf ((xs ++ [k']) ++ [k]) k + 1)%Z
     else (Js.indexOf ((xs ++ [k']) ++ [k]) k - 1)%Z)
  = Some k'.
Proof.
  intros Hfresh. rewrite (indexOf_app_fresh _ _ _ Hfresh), !length_app.
  cbn [List.length].
  destruct (Z.ltb_spec (Z.of_nat (List.length xs + 1))
              (Z.of_nat (List.length xs + 1 + 1) - 1)); [lia|].
  replace (Z.of_nat (List.length xs + 1) - 1)%Z
    with (Z.of_nat (List.length xs)) by lia.
  rewrite index_of_nat, <- app_assoc, nth_error_app2 by lia.
  now rewrite Nat.sub_diag.
Qed.

End StringFacts.

Section MapFacts.

Implicit Types (m : JsMap.t) (k v : string).

Lemma has_In m k : JsMap.has m k = true <-> In k (JsMap.keys m).
Proof.
  unfold JsMap.has, JsMap.keys. rewrite existsb_exists, in_map_iff.
  split; intros [e [H1 H2]]; exists e.
  - apply String.eqb_eq in H2. auto.
  - split; [assumption|]. now apply String.eqb_eq.
Qed.

Lemma has_false m k : JsMap.has m k = false <-> ~ In k (JsMap.keys m).
Proof.
  rewrite <- has_In. destruct (JsMap.has m k); split; intros; congruence.
Qed.

Lemma get_None m k : JsMap.get m k = None <-> JsMap.has m k = false.
Proof.
  induction m as [|[k' v'] m IH]; simpl.
  - tauto.
  - destruct (String.eqb k' k); simpl; [split; discriminate | exact IH].
Qed.

Lemma keys_delete m k :
  JsMap.keys (JsMap.delete m k) =
  filter (fun x => negb (String.eqb x k)) (JsMap.keys m).
Proof.
  induction m as [|[k' v'] m IH]; simpl; [reflexivity|].
  destruct (String.eqb k' k); simpl; now rewrite IH.
Qed.

Lemma has_delete_same m k : JsMap.has (JsMap.delete m k) k = false.
Proof.
  apply has_false. rewrite keys_delete, filter_In.
  intros [_ H]. now rewrite String.eqb_refl in H.
Qed.

Lemma delete_fresh m k : ~ In k (JsMap.keys m) -> JsMap.delete m k = m.
Proof.
  induction m as [|[k' v'] m IH]; simpl; intros H; [reflexivity|].
  destruct (String.eqb k' k) eqn:E.
  - apply String.eqb_eq in E. tauto.
  - simpl. f_equal. apply IH. tauto.
Qed.

Lemma delete_middle (pre post : JsMap.t) k v :
  ~ In k (JsMap.keys pre) -> ~ In k (JsMap.keys post) ->
  JsMap.delete (pre ++ (k, v) :: post) k = pre ++ post.
Proof.
  intros Hpre Hpost. unfold JsMap.delete.
  rewrite filter_app. cbn [filter fst]. rewrite String.eqb_refl. cbn [negb].
  fold (JsMap.delete pre k). fold (JsMap.delete post k).
  now rewrite !delete_fresh.
Qed.

Lemma set_fresh m k v :
  ~ In k (JsMap.keys m) -> JsMap.set m k v = m ++ [(k, v)].
Proof.
  induction m as [|[k' v'] m IH]; simpl; intros H; [reflexivity|].
  destruct (String.eqb k' k) eqn:E.
  - apply String.eqb_eq in E. tauto.
  - f_equal. apply IH. tauto.
Qed.

Lemma get_app_fresh (m m' : JsMap.t) k :
  ~ In k (JsMap.keys m) -> JsMap.get (m ++ m') k = JsMap.get m' k.
Proof.
  induction m as [|[k' v'] m IH]; simpl; intros H; [reflexivity|].
  destruct (String.eqb k' k) eqn:E.
  - apply String.eqb_eq in E. tauto.
  - apply IH. tauto.
Qed.

End MapFacts.

Section PageFacts.

Lemma on_first_fields act id st :
  let st' := Dom.on_first act id st in
  tabContentMap st' = tabContentMap st /\ openedId st' = openedId st /\
  maxNumTabs st' = maxNumTabs st /\ console st' = console st /\
  parentDiv st' = parentDiv st.
Proof.
  unfold Dom.on_first.
  destruct (navbarDiv st) as [tabs|]; [destruct (existsb _ tabs)|];
    cbn; repeat split.
Qed.

Lemma on_first_map act id st :
  tabContentMap (Dom.on_first act id st) = tabContentMap st.
Proof. apply on_first_fields. Qed.

Lemma on_first_opened act id st :
  openedId (Dom.on_first act id st) = openedId st.
Proof. apply on_first_fields. Qed.

Lemma on_first_max act id st :
  maxNumTabs (Dom.on_first act id st) = maxNumTabs st.
Proof. apply on_first_fields. Qed.

Lemma on_first_console act id st :
  console (Dom.on_first act id st) = console st.
Proof. apply on_first_fields. Qed.

Lemma update_first_ids id f l :
  (forall e, el_id (f e) = el_id e) ->
  map el_id (Dom.update_first id f l) = map el_id l.
Proof.
  intros Hf. induction l as [|e l IH]; simpl; [reflexivity|].
  destruct (Dom.has_id id e); simpl; [now rewrite Hf | now rewrite IH].
Qed.


(** An action that keeps the ids of a list keeps the ids of the page. *)
Lemma on_first_ids act id st :
  (forall l, map el_id (act id l) = map el_id l) ->
  rendered (Dom.on_first act id st) = rendered st /\
  panel_ids (Dom.on_first act id st) = panel_ids st.
Proof.
  intros Hact. unfold rendered, panel_ids, Dom.children, Dom.on_first.
  destruct (navbarDiv st) as [tabs|] eqn:E;
    [destruct (existsb _ tabs)|]; cbn; rewrite ?E, ?Hact; split; reflexivity.
Qed.

Lemma display_ids id d st :
  rendered (Dom.display id d st) = rendered st /\
  panel_ids (Dom.display id d st) = panel_ids st.
Proof.
  apply on_first_ids. intros l. now apply update_first_ids.
Qed.

Lemma active_ids id b st :
  rendered (Dom.active id b st) = rendered st /\
  panel_ids (Dom.active id b st) = panel_ids st.
Proof.
  apply on_first_ids. intros l. now apply update_first_ids.
Qed.


End PageFacts.

Ltac page_fields :=
  unfold Dom.remove, Dom.display, Dom.active;
  rewrite ?on_first_map, ?on_first_opened, ?on_first_max, ?on_first_console.

Section SwitchFacts.

Lemma hide_previous_fields st :
  tabContentMap (hide_previous st) = tabContentMap st /\
  openedId (hide_previous st) = openedId st /\
  maxNumTabs (hide_previous st) = maxNumTabs st /\
  console (hide_previous st) = console st.
Proof.
  unfold hide_previous. destruct (Js.truthy (openedId st)); page_fields;
    repeat split.
Qed.

Lemma hide_previous_ids st :
  rendered (hide_previous st) = rendered st /\
  panel_ids (hide_previous st) = panel_ids st.
Proof.
  unfold hide_previous. destruct (Js.truthy (openedId st)); [|now split].
  split.
  - now rewrite (proj1 (active_ids _ _ _)), (proj1 (display_ids _ _ _)).
  - now rewrite (proj2 (active_ids _ _ _)), (proj2 (display_ids _ _ _)).
Qed.

Lemma switchTab_unfold st id :
  openedId st <> id ->
  switchTab st id =
  with_openedId
    (Dom.active id true
       (Dom.display (Js.to_DOMString (JsMap.get (tabContentMap st) id))
          "block" (hide_previous st))) id.
Proof.
  intros Hne. unfold switchTab, hide_previous.
  apply String.eqb_neq in Hne. rewrite Hne.
  destruct (Js.truthy (openedId st)); page_fields; reflexivity.
Qed.

Lemma switchTab_openedId st id : openedId (switchTab st id) = id.
Proof.
  unfold switchTab. destruct (String.eqb (openedId st) id) eqn:E.
  - now apply String.eqb_eq.
  - reflexivity.
Qed.

Lemma switchTab_fields st id :
  tabContentMap (switchTab st id) = tabContentMap st /\
  maxNumTabs (switchTab st id) = maxNumTabs st /\
  console (switchTab st id) = console st.
Proof.
  destruct (String.eqb (openedId st) id) eqn:E.
  - unfold switchTab. rewrite E. repeat split.
  - apply String.eqb_neq in E. rewrite (switchTab_unfold _ _ E).
    cbn. page_fields.
    destruct (hide_previous_fields st) as (Hm & _ & Hx & Hc).
    now rewrite Hm, Hx, Hc.
Qed.

Lemma switchTab_ids st id :
  rendered (switchTab st id) = rendered st /\
  panel_ids (switchTab st id) = panel_ids st.
Proof.
  destruct (String.eqb (openedId st) id) eqn:E.
  - unfold switchTab. rewrite E. now split.
  - apply String.eqb_neq in E. rewrite (switchTab_unfold _ _ E).
    unfold rendered, panel_ids, Dom.children. cbn.
    fold (Dom.children
            (Dom.active id true
               (Dom.display (Js.to_DOMString (JsMap.get (tabContentMap st) id))
                  "block" (hide_previous st)))).
    fold (rendered
            (Dom.active id true
               (Dom.display (Js.to_DOMString (JsMap.get (tabContentMap st) id))
                  "block" (hide_previous st)))).
    fold (panel_ids
            (Dom.active id true
               (Dom.display (Js.to_DOMString (JsMap.get (tabContentMap st) id))
                  "block" (hide_previous st)))).
    split.
    + rewrite (proj1 (active_ids _ _ _)), (proj1 (display_ids _ _ _)).
      apply hide_previous_ids.
    + rewrite (proj2 (active_ids _ _ _)), (proj2 (display_ids _ _ _)).
      apply hide_previous_ids.
Qed.

End SwitchFacts.

Section RemoveFacts.

Lemma removeTab_absent st idTab :
  JsMap.has (tabContentMap st) idTab = false ->
  removeTab st idTab = emit st (not_found_warning idTab).
Proof.
  intros H. unfold removeTab. now rewrite H.
Qed.

Lemma removeTab_present st idTab :
  JsMap.has (tabContentMap st) idTab = true ->
  removeTab st idTab =
  let st3 := after_delete st idTab in
  let tabsArray := JsMap.keys (tabContentMap st) in
  if JsMap.has (JsMap.delete (tabContentMap st) idTab) (openedId st) then st3
  else if Nat.eqb (List.length tabsArray) 0 then with_openedId st3 ""
  else
    let removedTabIndex := Js.indexOf tabsArray idTab in
    let nextTabIndex :=
      if Z.ltb removedTabIndex (Z.of_nat (List.length tabsArray) - 1)
      then (removedTabIndex + 1)%Z
      else (removedTabIndex - 1)%Z in
    match Js.index tabsArray nextTabIndex with
    | Some switchToTabId =>
        if Js.truthy switchToTabId then switchTab st3 switchToTabId else st3
    | None => st3
    end.
Proof.
  intros H. unfold removeTab, after_delete. rewrite H. cbn [negb].
  cbn [tabContentMap openedId with_tabContentMap]. page_fields. reflexivity.
Qed.

Lemma after_delete_fields st idTab :
  tabContentMap (after_delete st idTab) = JsMap.delete (tabContentMap st) idTab /\
  openedId (after_delete st idTab) = openedId st /\
  maxNumTabs (after_delete st idTab) = maxNumTabs st /\
  console (after_delete st idTab) = console st.
Proof.
  unfold after_delete. cbn. page_fields. repeat split.
Qed.

(** Whatever happens to the focus, a present entry is deleted and nothing
    else in the map moves. *)
Lemma removeTab_map st idTab :
  JsMap.has (tabContentMap st) idTab = true ->
  tabContentMap (removeTab st idTab) = JsMap.delete (tabContentMap st) idTab.
Proof.
  intros H. rewrite (removeTab_present _ _ H). cbv zeta.
  destruct (after_delete_fields st idTab) as (Hm & _).
  repeat match goal with
         | |- context [if ?b then _ else _] => destruct b
         | |- context [match ?o with Some _ => _ | None => _ end] => destruct o
         end;
    try exact Hm; try (cbn; exact Hm);
    rewrite (proj1 (switchTab_fields _ _)); exact Hm.
Qed.

Lemma nth_error_keys_last (pre : JsMap.t) (k c : string) (rest : list string) :
  nth_error (JsMap.keys (pre ++ [(k, c)]) ++ rest) (List.length pre) = Some k.
Proof.
  unfold JsMap.keys. rewrite map_app, <- app_assoc. cbn.
  rewrite nth_error_app2; rewrite length_map; [|lia].
  now rewrite Nat.sub_diag.
Qed.

End RemoveFacts.

Section StoreInvariant.

Lemma distinctb_NoDup l : distinctb l = true -> NoDup l.
Proof.
  induction l as [|x l IH]; simpl; intros H; [constructor|].
  apply andb_true_iff in H. destruct H as [Hx Hl].
  constructor; [|auto].
  intros Hin. apply negb_true_iff in Hx.
  assert (existsb (String.eqb x) l = true); [|congruence].
  apply existsb_exists. exists x. split; [assumption | apply String.eqb_refl].
Qed.

Lemma store_okb_spec m : store_okb m = true -> store_ok m.
Proof.
  unfold store_okb, store_ok. intros H.
  apply andb_true_iff in H. destruct H as [Hd Hf]. split.
  - now apply distinctb_NoDup.
  - apply Forall_forall. intros e He.
    rewrite forallb_forall in Hf. specialize (Hf e He).
    apply andb_true_iff in Hf. now rewrite !truthy_true in Hf.
Qed.

Lemma store_ok_split (pre post : JsMap.t) k c :
  store_ok (pre ++ (k, c) :: post) ->
  ~ In k (JsMap.keys pre) /\ ~ In k (JsMap.keys post) /\
  Forall (fun e => fst e <> "") post /\
  Forall (fun e => fst e <> "") pre.
Proof.
  intros [Hnd Hall]. unfold JsMap.keys in *. rewrite map_app in Hnd. cbn in Hnd.
  pose proof (NoDup_remove_2 _ _ _ Hnd) as Hk. rewrite in_app_iff in Hk.
  apply Forall_app in Hall. destruct Hall as [Hpre Hpost].
  inversion Hpost as [|? ? _ Hpost']; subst.
  repeat split; try tauto.
  - eapply Forall_impl; [|exact Hpost']. intros ? []; assumption.
  - eapply Forall_impl; [|exact Hpre]. intros ? []; assumption.
Qed.

End StoreInvariant.

(** ** Focus after a removal *)

Section RemovalFocus.

(** C1 (as the code behaves): when [tabId] is the only key, [removeTab]
    empties the store but leaves the active id as it was; the branch that
    clears it tests the length of the key array taken before the deletion,
    which is 1 here. *)
Theorem removeTab_only_tab_keeps_openedId (st : state) (k c : string) :
  tabContentMap st = [(k, c)] ->
  getTabCount (removeTab st k) = 0 /\
  getActiveTab (removeTab st k) = getActiveTab st.
Proof.
  intros Hm.
  assert (Hhas : JsMap.has (tabContentMap st) k = true).
  { rewrite Hm. cbn. now rewrite String.eqb_refl. }
  unfold getTabCount, getActiveTab.
  rewrite (removeTab_map _ _ Hhas), (removeTab_present _ _ Hhas). cbv zeta.
  rewrite Hm. cbn. rewrite String.eqb_refl. cbn.
  split; [reflexivity|]. apply after_delete_fields.
Qed.

Lemma removeTab_only_tab_keeps_openedId_witness :
  getAllTabs oneTab = ["lt-tab-tab1"] /\
  getTabCount (removeTab oneTab "lt-tab-tab1") = 0 /\
  getActiveTab (removeTab oneTab "lt-tab-tab1") = "lt-tab-tab1".
Proof.
  split; [reflexivity|].
  exact (removeTab_only_tab_keeps_openedId oneTab
           "lt-tab-tab1" "tab1-container" eq_refl).
Defined.

(** C2: when the active tab is removed and another tab remains, the focus
    goes to the tab that stood right after it, and to the one right before
    it when it was the last. *)
Theorem removeTab_focus_next_else_previous
    (st : state) (pre post : JsMap.t) (k c : string) :
  tabContentMap st = pre ++ (k, c) :: post ->
  store_ok (tabContentMap st) ->
  getActiveTab st = k ->
  getAllTabs (removeTab st k) = JsMap.keys pre ++ JsMap.keys post /\
  (forall k' c' post', post = (k', c') :: post' ->
     getActiveTab (removeTab st k) = k') /\
  (forall pre' k' c', post = [] -> pre = pre' ++ [(k', c')] ->
     getActiveTab (removeTab st k) = k').
Proof.
  intros Hm Hok Hact. unfold getActiveTab, getAllTabs in *.
  rewrite Hm in Hok.
  destruct (store_ok_split _ _ _ _ Hok) as (Hpre & Hpost & Hkpost & Hkpre).
  assert (Hhas : JsMap.has (tabContentMap st) k = true).
  { apply has_In. rewrite Hm. unfold JsMap.keys.
    rewrite map_app, in_app_iff. right. now left. }
  assert (Hdel : JsMap.delete (tabContentMap st) k = pre ++ post).
  { rewrite Hm. now apply delete_middle. }
  assert (Hkeys : JsMap.keys (tabContentMap st)
                  = JsMap.keys pre ++ k :: JsMap.keys post).
  { rewrite Hm. unfold JsMap.keys. now rewrite map_app. }
  assert (Hlen : Nat.eqb (List.length (JsMap.keys (tabContentMap st))) 0 = false).
  { rewrite Hkeys, length_app. cbn. apply Nat.eqb_neq. lia. }
  assert (Hgone : JsMap.has (pre ++ post) k = false).
  { apply has_false. unfold JsMap.keys in *. rewrite map_app, in_app_iff. tauto. }
  split; [|split].
  - rewrite (removeTab_map _ _ Hhas), Hdel. unfold JsMap.keys. apply map_app.
  - intros k' c' post' ->.
    rewrite (removeTab_present _ _ Hhas). cbv zeta.
    rewrite Hdel, Hact, Hgone, Hlen, Hkeys. cbn [JsMap.keys map fst].
    fold (JsMap.keys post'). rewrite (focus_target_next _ _ _ _ Hpre).
    inversion Hkpost as [|? ? Hk' _]; subst. cbn in Hk'.
    rewrite (proj2 (truthy_true _) Hk'). apply switchTab_openedId.
  - intros pre' k' c' -> ->.
    rewrite (removeTab_present _ _ Hhas). cbv zeta.
    rewrite Hdel, Hact, Hgone, Hlen, Hkeys.
    unfold JsMap.keys in *. rewrite map_app in *. cbn [map fst] in *.
    rewrite (focus_target_previous _ _ _ Hpre).
    apply Forall_app in Hkpre. destruct Hkpre as [_ Hk'].
    inversion Hk' as [|? ? Hk'' _]; subst. cbn in Hk''.
    rewrite (proj2 (truthy_true _) Hk''). apply switchTab_openedId.
Qed.

Lemma removeTab_focus_next_else_previous_witness :
  getActiveTab tabsABC = "lt-tab-c" /\
  getActiveTab (removeTab tabsABC "lt-tab-c") = "lt-tab-b" /\
  getActiveTab (switchTab tabsABC "lt-tab-a") = "lt-tab-a" /\
  getActiveTab (removeTab (switchTab tabsABC "lt-tab-a") "lt-tab-a")
  = "lt-tab-b".
Proof.
  split; [reflexivity|]. split; [|split; [reflexivity|]].
  - exact (proj2 (proj2 (removeTab_focus_next_else_previous tabsABC
             [("lt-tab-a", "a-container"); ("lt-tab-b", "b-container")] []
             "lt-tab-c" "c-container" eq_refl
             (store_okb_spec (tabContentMap tabsABC) eq_refl) eq_refl))
           [("lt-tab-a", "a-container")] "lt-tab-b" "b-container"
           eq_refl eq_refl).
  - exact (proj1 (proj2 (removeTab_focus_next_else_previous
             (switchTab tabsABC "lt-tab-a") []
             [("lt-tab-b", "b-container"); ("lt-tab-c", "c-container")]
             "lt-tab-a" "a-container" eq_refl
             (store_okb_spec (tabContentMap (switchTab tabsABC "lt-tab-a"))
                eq_refl) eq_refl))
           "lt-tab-b" "b-container" [("lt-tab-c", "c-container")] eq_refl).
Defined.

End RemovalFocus.

(** ** Removal of absent ids, and of all tabs *)

Section RemovalOther.

(** C8: removing an id that is not in the store only logs the warning; the
    store, its order, the active id and the page stay as they were. *)
Theorem removeTab_absent_no_change (st : state) (id : string) :
  JsMap.has (tabContentMap st) id = false ->
  removeTab st id = emit st (not_found_warning id) /\
  console (removeTab st id) = console st ++ [not_found_warning id] /\
  tabContentMap (removeTab st id) = tabContentMap st /\
  getAllTabs (removeTab st id) = getAllTabs st /\
  getTabCount (removeTab st id) = getTabCount st /\
  getActiveTab (removeTab st id) = getActiveTab st /\
  navbarDiv (removeTab st id) = navbarDiv st /\
  hostChildren (removeTab st id) = hostChildren st.
Proof.
  intros H. rewrite (removeTab_absent _ _ H). repeat split.
Qed.

Lemma removeTab_absent_no_change_witness :
  JsMap.has (tabContentMap tabsABC) "lt-tab-d" = false /\
  getAllTabs (removeTab tabsABC "lt-tab-d")
  = ["lt-tab-a"; "lt-tab-b"; "lt-tab-c"] /\
  getActiveTab (removeTab tabsABC "lt-tab-d") = "lt-tab-c".
Proof.
  split; [reflexivity|].
  pose proof (removeTab_absent_no_change tabsABC "lt-tab-d" eq_refl)
    as (_ & _ & _ & Hall & _ & Hact & _).
  split; [exact Hall | exact Hact].
Defined.

Lemma get_Some_has m k c : JsMap.get m k = Some c -> JsMap.has m k = true.
Proof.
  intros H. destruct (JsMap.has m k) eqn:E; [reflexivity|].
  apply get_None in E. congruence.
Qed.

(** [removeTab] on every live slot leaves no entry behind. *)
Lemma forEach_removeTab_empties (slots : list string) :
  forall st,
    (forall k, In k (JsMap.keys (tabContentMap st)) -> In k slots) ->
    tabContentMap (forEach (fun _ tabId s => removeTab s tabId) slots st) = [].
Proof.
  induction slots as [|k slots IH]; intros st Hsub; cbn [forEach].
  - destruct (tabContentMap st) as [|[k v] m]; [reflexivity|].
    exfalso. apply (Hsub k). now left.
  - destruct (JsMap.get (tabContentMap st) k) as [c|] eqn:E.
    + apply IH. intros x Hx.
      rewrite (removeTab_map _ _ (get_Some_has _ _ _ E)), keys_delete in Hx.
      apply filter_In in Hx. destruct Hx as [Hx Hne].
      apply negb_true_iff, String.eqb_neq in Hne.
      destruct (Hsub x Hx) as [Heq|Hin]; [congruence | exact Hin].
    + apply IH. intros x Hx. destruct (Hsub x Hx) as [->|]; [|assumption].
      apply get_None, has_false in E. contradiction.
Qed.

Lemma removeAllTabs_empties_store (st : state) :
  tabContentMap (removeAllTabs st) = [].
Proof.
  unfold removeAllTabs. now apply forEach_removeTab_empties.
Qed.

(** [removeTab] never turns a non-empty active id into the empty one. *)
Lemma removeTab_openedId_stays_set (st : state) (idTab : string) :
  openedId st <> "" -> openedId (removeTab st idTab) <> "".
Proof.
  intros Hset. destruct (JsMap.has (tabContentMap st) idTab) eqn:Hhas.
  - rewrite (removeTab_present _ _ Hhas). cbv zeta.
    pose proof (proj1 (proj2 (after_delete_fields st idTab))) as Ho.
    destruct (JsMap.has _ (openedId st)); [now rewrite Ho|].
    destruct (Nat.eqb_spec (List.length (JsMap.keys (tabContentMap st))) 0)
      as [Hlen|_].
    + apply has_In in Hhas.
      destruct (JsMap.keys (tabContentMap st)); [contradiction | discriminate].
    + destruct (Js.index _ _) as [s|]; [|now rewrite Ho].
      destruct (Js.truthy s) eqn:Hs; [|now rewrite Ho].
      rewrite switchTab_openedId. now apply truthy_true.
  - now rewrite (removeTab_absent _ _ Hhas).
Qed.

Lemma forEach_removeTab_openedId_stays_set (slots : list string) :
  forall st,
    openedId st <> "" ->
    openedId (forEach (fun _ tabId s => removeTab s tabId) slots st) <> "".
Proof.
  induction slots as [|k slots IH]; intros st Hset; cbn [forEach].
  - assumption.
  - destruct (JsMap.get (tabContentMap st) k); apply IH; [|assumption].
    now apply removeTab_openedId_stays_set.
Qed.

(** C5 (as the code behaves): [removeAllTabs] empties the store, but an
    active id that was set is still set afterwards; no step of [removeTab]
    reaches the branch that clears it. *)
Theorem removeAllTabs_keeps_openedId_set (st : state) :
  getActiveTab st <> "" ->
  getTabCount (removeAllTabs st) = 0 /\ getActiveTab (removeAllTabs st) <> "".
Proof.
  intros Hset. unfold getTabCount, getActiveTab in *. split.
  - now rewrite removeAllTabs_empties_store.
  - unfold removeAllTabs. now apply forEach_removeTab_openedId_stays_set.
Qed.

Lemma removeAllTabs_keeps_openedId_set_witness :
  getActiveTab tabsABC = "lt-tab-c" /\
  getTabCount (removeAllTabs tabsABC) = 0 /\
  getActiveTab (removeAllTabs tabsABC) <> "".
Proof.
  split; [reflexivity|].
  apply (removeAllTabs_keeps_openedId_set tabsABC). discriminate.
Defined.

End RemovalOther.

(** ** Switching *)

Section Switching.






End Switching.

(** ** Adding tabs *)

Section Adding.

Lemma capacity_reached_true (st : state) (n : Z) :
  maxNumTabs st = Some n -> n <> 0%Z ->
  (Z.of_nat (getTabCount st) >= n)%Z ->
  capacity_reached st = true.
Proof.
  intros Hmax Hn Hsize. unfold capacity_reached, getTabCount in *.
  rewrite Hmax. apply andb_true_iff. split.
  - unfold Js.truthy_num. now apply negb_true_iff, Z.eqb_neq.
  - apply Z.geb_le. lia.
Qed.

(** The guard is off exactly when no capacity was given, when it is [0],
    or when the store is below it. *)
Lemma capacity_reached_false (st : state) :
  capacity_reached st = false <->
  maxNumTabs st = None \/ maxNumTabs st = Some 0%Z \/
  exists n, maxNumTabs st = Some n /\ (Z.of_nat (getTabCount st) < n)%Z.
Proof.
  unfold capacity_reached, getTabCount, Js.truthy_num.
  destruct (maxNumTabs st) as [n|]; [|intuition].
  rewrite andb_false_iff, negb_false_iff, Z.eqb_eq.
  split.
  - intros [->|H]; [auto|]. right. right. exists n. split; [reflexivity|].
    destruct (Z.geb_spec (Z.of_nat (JsMap.size (tabContentMap st))) n);
      [discriminate | lia].
  - intros [H|[H|[n' [H Hlt]]]]; [discriminate| |].
    + left. congruence.
    + right. injection H as <-.
      destruct (Z.geb_spec (Z.of_nat (JsMap.size (tabContentMap st))) n);
        [lia | reflexivity].
Qed.

Lemma addTab_at_capacity (st : state) (p : params) :
  capacity_reached st = true -> addTab st p = emit st capacity_alert.
Proof.
  intros H. unfold addTab. now rewrite H.
Qed.

Lemma addTab_existing (st : state) (p : params) :
  capacity_reached st = false ->
  JsMap.has (tabContentMap st) (tabId_of (tabTitle p)) = true ->
  addTab st p = switchTab st (tabId_of (tabTitle p)).
Proof.
  intros Hcap Hhas. unfold addTab, tabId_of in *. now rewrite Hcap, Hhas.
Qed.

Lemma appendTab_map (st : state) (tab : element) :
  tabContentMap (appendTab st tab) = tabContentMap st.
Proof. unfold appendTab. now destruct (navbarDiv st). Qed.

Lemma createTabContent_map (st : state) (tabId : string) :
  tabContentMap (createTabContent st tabId) = tabContentMap st.
Proof. unfold createTabContent. now destruct (navbarDiv st). Qed.

(** The panel's id, cut out of the tab id, is the content id the map
    stores. *)
Lemma substring_all (s : string) :
  String.substring 0 (String.length s) s = s.
Proof.
  induction s as [|a s IH]; cbn; [reflexivity | now rewrite IH].
Qed.

Lemma createTabContent_id (t : string) :
  String.append (Js.replace "lt-tab-" "" (tabId_of t)) "-container"
  = contentId_of t.
Proof.
  unfold tabId_of, contentId_of. f_equal. cbn.
  rewrite Nat.sub_0_r.
  destruct (sanitize t) as [|a s]; [reflexivity|].
  apply (substring_all (String a s)).
Qed.

(** A fresh title below the guard: the entry goes to the end of the map
    and the new tab takes the focus. *)
Lemma addTab_fresh (st : state) (p : params) :
  capacity_reached st = false ->
  JsMap.has (tabContentMap st) (tabId_of (tabTitle p)) = false ->
  callback_keeps_store p ->
  tabContentMap (addTab st p)
  = tabContentMap st ++ [(tabId_of (tabTitle p), contentId_of (tabTitle p))] /\
  openedId (addTab st p) = tabId_of (tabTitle p).
Proof.
  intros Hcap Hfresh Hcb. unfold addTab.
  fold (tabId_of (tabTitle p)). fold (contentId_of (tabTitle p)).
  rewrite Hcap, Hfresh. split; [|apply switchTab_openedId].
  rewrite (proj1 (switchTab_fields _ _)).
  unfold callback_keeps_store in Hcb.
  destruct (addContent p) as [callback|]; [rewrite Hcb|];
    cbn [tabContentMap with_tabContentMap];
    rewrite createTabContent_map, appendTab_map;
    apply set_fresh; now apply has_false.
Qed.

(** C3, amended: when [maxNumTabs] holds a number other than [0] and the
    store has reached it, [addTab] raises the capacity alert and changes
    nothing else: same count, same order, same active id, same page. *)
Theorem addTab_at_capacity_aborts (st : state) (p : params) (n : Z) :
  maxNumTabs st = Some n ->
  n <> 0%Z ->
  (Z.of_nat (getTabCount st) >= n)%Z ->
  addTab st p = emit st capacity_alert /\
  console (addTab st p) = console st ++ [capacity_alert] /\
  getTabCount (addTab st p) = getTabCount st /\
  getAllTabs (addTab st p) = getAllTabs st /\
  getActiveTab (addTab st p) = getActiveTab st /\
  navbarDiv (addTab st p) = navbarDiv st /\
  hostChildren (addTab st p) = hostChildren st.
Proof.
  intros Hmax Hn Hsize.
  rewrite (addTab_at_capacity _ p (capacity_reached_true _ _ Hmax Hn Hsize)).
  repeat split.
Qed.

Lemma addTab_at_capacity_aborts_witness :
  getTabCount twoOfTwo = 2 /\
  getTabCount (addTab twoOfTwo (titled "C")) = 2 /\
  getActiveTab (addTab twoOfTwo (titled "C")) = getActiveTab twoOfTwo.
Proof.
  split; [reflexivity|].
  assert (H2 : (2 <> 0)%Z) by discriminate.
  assert (Hge : (Z.of_nat (getTabCount twoOfTwo) >= 2)%Z) by (cbn; lia).
  pose proof (addTab_at_capacity_aborts twoOfTwo (titled "C") 2 eq_refl H2 Hge)
    as (_ & _ & Hcount & _ & Hact & _).
  split; [exact Hcount | exact Hact].
Defined.

(** C3 as first stated fails: a capacity of [0] is set and the count has
    reached it, yet [addTab] inserts. *)
Lemma addTab_capacity_zero_counterexample :
  ~ (forall (st : state) (p : params) (n : Z),
       maxNumTabs st = Some n ->
       (Z.of_nat (getTabCount st) >= n)%Z ->
       getTabCount (addTab st p) = getTabCount st /\
       getAllTabs (addTab st p) = getAllTabs st /\
       getActiveTab (addTab st p) = getActiveTab st).
Proof.
  intros H.
  assert (Hge : (Z.of_nat (getTabCount (page0 (Some 0%Z))) >= 0)%Z)
    by (cbn; lia).
  destruct (H (page0 (Some 0%Z)) (titled "A") 0%Z eq_refl Hge) as [Hcount _].
  discriminate Hcount.
Qed.

(** C4: below the guard, a title whose sanitized id is already a key only
    moves the focus to that tab: the map, the count, the rendered tabs, the
    panels and the console are as before. *)
Theorem addTab_existing_title_focuses (st : state) (p : params) :
  capacity_reached st = false ->
  JsMap.has (tabContentMap st) (tabId_of (tabTitle p)) = true ->
  addTab st p = switchTab st (tabId_of (tabTitle p)) /\
  getActiveTab (addTab st p) = tabId_of (tabTitle p) /\
  tabContentMap (addTab st p) = tabContentMap st /\
  getTabCount (addTab st p) = getTabCount st /\
  rendered (addTab st p) = rendered st /\
  panel_ids (addTab st p) = panel_ids st /\
  console (addTab st p) = console st.
Proof.
  intros Hcap Hhas. rewrite (addTab_existing _ _ Hcap Hhas).
  destruct (switchTab_fields st (tabId_of (tabTitle p))) as (Hm & _ & Hc).
  destruct (switchTab_ids st (tabId_of (tabTitle p))) as (Hr & Hp).
  unfold getActiveTab, getTabCount. rewrite Hm.
  repeat split; try assumption. apply switchTab_openedId.
Qed.

Lemma addTab_existing_title_focuses_witness :
  tabId_of "Tab 1" = tabId_of "tab 1!!" /\
  getAllTabs (addTab oneTab (titled "tab 1!!")) = ["lt-tab-tab1"] /\
  getActiveTab (addTab oneTab (titled "tab 1!!")) = "lt-tab-tab1" /\
  panel_ids (addTab oneTab (titled "tab 1!!")) = ["tab1-container"].
Proof.
  split; [reflexivity|].
  pose proof (addTab_existing_title_focuses oneTab (titled "tab 1!!")
                eq_refl eq_refl) as (_ & Hact & Hm & _ & _ & Hp & _).
  unfold getAllTabs. rewrite Hm, Hp. split; [reflexivity|].
  split; [exact Hact | reflexivity].
Defined.

(** C9: with [maxNumTabs] equal to [0] the guard is off, whatever the
    count: a title with a fresh id is stored at the end of the map and
    takes the focus. *)
Theorem addTab_capacity_zero_inserts (st : state) (p : params) :
  maxNumTabs st = Some 0%Z ->
  JsMap.has (tabContentMap st) (tabId_of (tabTitle p)) = false ->
  callback_keeps_store p ->
  capacity_reached st = false /\
  getAllTabs (addTab st p) = getAllTabs st ++ [tabId_of (tabTitle p)] /\
  JsMap.get (tabContentMap (addTab st p)) (tabId_of (tabTitle p))
  = Some (contentId_of (tabTitle p)) /\
  getTabCount (addTab st p) = S (getTabCount st) /\
  getActiveTab (addTab st p) = tabId_of (tabTitle p).
Proof.
  intros Hmax Hfresh Hcb.
  assert (Hcap : capacity_reached st = false).
  { unfold capacity_reached. now rewrite Hmax. }
  destruct (addTab_fresh _ _ Hcap Hfresh Hcb) as [Hm Ho].
  unfold getAllTabs, getTabCount, getActiveTab, JsMap.keys, JsMap.size.
  rewrite Hm, map_app, length_app. cbn [map fst List.length].
  repeat split; try assumption.
  - rewrite get_app_fresh by now apply has_false.
    cbn. now rewrite String.eqb_refl.
  - lia.
Qed.

Lemma addTab_capacity_zero_inserts_witness :
  maxNumTabs (setMaxTabs tabsABC 0) = Some 0%Z /\
  getAllTabs (addTab (setMaxTabs tabsABC 0) (titled "D"))
  = ["lt-tab-a"; "lt-tab-b"; "lt-tab-c"; "lt-tab-d"] /\
  maxNumTabs (page0 (Some 0%Z)) = Some 0%Z /\
  getTabCount (addTab (page0 (Some 0%Z)) (titled "A")) = 1.
Proof.
  split; [reflexivity|]. split; [|split; [reflexivity|]].
  - exact (proj1 (proj2 (addTab_capacity_zero_inserts
             (setMaxTabs tabsABC 0) (titled "D") eq_refl eq_refl I))).
  - exact (proj1 (proj2 (proj2 (proj2 (addTab_capacity_zero_inserts
             (page0 (Some 0%Z)) (titled "A") eq_refl eq_refl I))))).
Defined.

(** C10: at capacity the guard comes first: a title whose id is already a
    key raises the alert and the focus does not move to that tab. *)
Theorem addTab_at_capacity_ignores_existing (st : state) (p : params) (n : Z) :
  maxNumTabs st = Some n ->
  n <> 0%Z ->
  (Z.of_nat (getTabCount st) >= n)%Z ->
  JsMap.has (tabContentMap st) (tabId_of (tabTitle p)) = true ->
  getActiveTab (addTab st p) = getActiveTab st /\
  console (addTab st p) = console st ++ [capacity_alert] /\
  navbarDiv (addTab st p) = navbarDiv st /\
  hostChildren (addTab st p) = hostChildren st.
Proof.
  intros Hmax Hn Hsize _.
  rewrite (addTab_at_capacity _ p (capacity_reached_true _ _ Hmax Hn Hsize)).
  repeat split.
Qed.

Lemma addTab_at_capacity_ignores_existing_witness :
  JsMap.has (tabContentMap twoOfTwo) (tabId_of "A") = true /\
  getActiveTab twoOfTwo = "lt-tab-b" /\
  getActiveTab (addTab twoOfTwo (titled "A")) = "lt-tab-b" /\
  getActiveTab (switchTab twoOfTwo (tabId_of "A")) = "lt-tab-a".
Proof.
  split; [reflexivity|]. split; [reflexivity|]. split; [|reflexivity].
  assert (H2 : (2 <> 0)%Z) by discriminate.
  assert (Hge : (Z.of_nat (getTabCount twoOfTwo) >= 2)%Z) by (cbn; lia).
  exact (proj1 (addTab_at_capacity_ignores_existing twoOfTwo (titled "A") 2
                  eq_refl H2 Hge eq_refl)).
Defined.

End Adding.

(** ** Reordering *)

Section Reordering.

Lemma keys_kept (m : JsMap.t) (ids : list string) :
  JsMap.keys (kept m ids) = filter (JsMap.has m) ids.
Proof.
  induction ids as [|id ids IH]; cbn; [reflexivity|].
  destruct (JsMap.get m id) as [c|] eqn:E.
  - rewrite (get_Some_has _ _ _ E). cbn. now f_equal.
  - apply get_None in E. now rewrite E.
Qed.

Lemma get_kept (m : JsMap.t) (ids : list string) (k : string) :
  In k (JsMap.keys (kept m ids)) ->
  JsMap.get (kept m ids) k = JsMap.get m k.
Proof.
  induction ids as [|id ids IH]; cbn; [contradiction|].
  destruct (JsMap.get m id) as [c|] eqn:E; cbn.
  - destruct (String.eqb_spec id k) as [->|Hne]; [now rewrite E|].
    intros [Heq|Hin]; [contradiction | now apply IH].
  - exact IH.
Qed.

Lemma get_value_set (m : JsMap.t) (k c : string) :
  Forall (fun e => snd e <> "") m -> JsMap.get m k = Some c -> c <> "".
Proof.
  induction m as [|[k' v'] m IH]; cbn; intros Hall Hget; [discriminate|].
  inversion Hall as [|? ? Hhead Htail]; subst.
  destruct (String.eqb k' k).
  - injection Hget as <-. exact Hhead.
  - now apply IH.
Qed.

(** The loop of [reorderingMap], started from any partial result whose
    keys are none of the ids still to come. *)
Lemma reorderingMap_loop (m : JsMap.t) (tabs : list element) :
  Forall (fun e => snd e <> "") m ->
  NoDup (map el_id tabs) ->
  forall acc : JsMap.t,
    (forall id, In id (map el_id tabs) -> ~ In id (JsMap.keys acc)) ->
    fold_left
      (fun (newOrder : JsMap.t) (tab : element) =>
         let tabId := el_id tab in
         let contentId := JsMap.get m tabId in
         match contentId with
         | Some c => if Js.truthy c then JsMap.set newOrder tabId c else newOrder
         | None => newOrder
         end)
      tabs acc
    = acc ++ kept m (map el_id tabs).
Proof.
  intros Hvals. induction tabs as [|tab tabs IH]; intros Hnd acc Hfresh.
  - cbn. now rewrite app_nil_r.
  - cbn [map] in Hnd. inversion Hnd as [|? ? Hhead Htail]; subst.
    cbn [fold_left map kept flat_map]. cbv zeta.
    destruct (JsMap.get m (el_id tab)) as [c|] eqn:E.
    + assert (Hc : Js.truthy c = true).
      { apply truthy_true. eapply get_value_set; eassumption. }
      rewrite Hc, set_fresh by (apply Hfresh; now left).
      rewrite IH; [now rewrite <- app_assoc | assumption |].
      intros id Hid. unfold JsMap.keys. rewrite map_app, in_app_iff. cbn.
      intros [Hin|[Heq|[]]].
      * apply (Hfresh id); [now right | exact Hin].
      * subst. contradiction.
    + cbn [app]. apply IH; [assumption|].
      intros id Hid. apply Hfresh. now right.
Qed.

Lemma reorderingMap_kept (st : state) :
  store_ok (tabContentMap st) ->
  NoDup (rendered st) ->
  tabContentMap (reorderingMap st) = kept (tabContentMap st) (rendered st).
Proof.
  intros [_ Hvals] Hnd. unfold reorderingMap, rendered.
  cbn [tabContentMap with_tabContentMap].
  rewrite reorderingMap_loop; [reflexivity | | assumption | intros ? ? []].
  eapply Forall_impl; [|exact Hvals]. intros ? []; assumption.
Qed.

Lemma filter_all_iff {A : Type} (f : A -> bool) (l : list A) :
  filter f l = l <-> (forall x, In x l -> f x = true).
Proof.
  split.
  - intros Heq x Hx. rewrite <- Heq in Hx. now apply filter_In in Hx.
  - intros Hall. apply forallb_filter_id. now apply forallb_forall.
Qed.

(** C6, amended: for a store as the class builds it and distinct rendered
    tab ids, [reorderingMap] leaves as keys exactly the rendered ids that
    were keys before, in rendered order, each with the content id it had;
    the other rendered ids and the other keys are dropped.  So the keys equal
    the rendered order exactly when every rendered id was a key. *)
Theorem reorderingMap_follows_rendered (st : state) :
  store_ok (tabContentMap st) ->
  NoDup (rendered st) ->
  getAllTabs (reorderingMap st)
  = filter (JsMap.has (tabContentMap st)) (rendered st) /\
  (forall k, In k (getAllTabs (reorderingMap st)) ->
     JsMap.get (tabContentMap (reorderingMap st)) k
     = JsMap.get (tabContentMap st) k) /\
  (getAllTabs (reorderingMap st) = rendered st <->
   forall k, In k (rendered st) -> JsMap.has (tabContentMap st) k = true).
Proof.
  intros Hok Hnd. unfold getAllTabs.
  rewrite (reorderingMap_kept _ Hok Hnd), keys_kept.
  split; [reflexivity|]. split.
  - intros k Hk. apply get_kept. now rewrite keys_kept.
  - apply filter_all_iff.
Qed.

Lemma reorderingMap_follows_rendered_witness :
  getAllTabs shuffled = ["lt-tab-a"; "lt-tab-b"; "lt-tab-c"] /\
  rendered shuffled = ["lt-tab-c"; "lt-tab-x"; "lt-tab-a"] /\
  getAllTabs (reorderingMap shuffled) = ["lt-tab-c"; "lt-tab-a"].
Proof.
  split; [reflexivity|]. split; [reflexivity|].
  exact (proj1 (reorderingMap_follows_rendered shuffled
           (store_okb_spec (tabContentMap shuffled) eq_refl)
           (distinctb_NoDup ["lt-tab-c"; "lt-tab-x"; "lt-tab-a"] eq_refl))).
Defined.

(** C6 as first stated fails in its last sentence: a rendered element
    whose id the store does not hold is skipped, so the keys are not the
    rendered order. *)
Lemma reorderingMap_stray_tab_counterexample :
  ~ (forall st : state, getAllTabs (reorderingMap st) = rendered st).
Proof.
  intros H. specialize (H strayTab). discriminate H.
Qed.

End Reordering.

(** ** The store invariant holds along every run *)

Section Invariant.

Lemma store_ok_empty : store_ok JsMap.empty.
Proof. split; constructor. Qed.

Lemma store_ok_delete (m : JsMap.t) (k : string) :
  store_ok m -> store_ok (JsMap.delete m k).
Proof.
  intros [Hnd Hall]. split.
  - rewrite keys_delete. now apply NoDup_filter.
  - unfold JsMap.delete. rewrite Forall_forall in *.
    intros e He. apply filter_In in He. now apply Hall.
Qed.

Lemma keys_set (m : JsMap.t) (k v : string) :
  JsMap.keys (JsMap.set m k v)
  = if JsMap.has m k then JsMap.keys m else JsMap.keys m ++ [k].
Proof.
  unfold JsMap.keys, JsMap.has.
  induction m as [|[k' v'] m IH]; cbn; [reflexivity|].
  destruct (String.eqb k' k); cbn; [reflexivity|].
  rewrite IH. now destruct (existsb _ m).
Qed.

Lemma store_ok_set (m : JsMap.t) (k v : string) :
  store_ok m -> k <> "" -> v <> "" -> store_ok (JsMap.set m k v).
Proof.
  intros [Hnd Hall] Hk Hv. split.
  - rewrite keys_set. destruct (JsMap.has m k) eqn:E; [assumption|].
    apply has_false in E. apply NoDup_app; repeat split.
    + assumption.
    + constructor; [intros [] | constructor].
    + intros x Hx [<-|[]]. contradiction.
  - clear Hnd. induction m as [|[k' v'] m IH]; cbn.
    + constructor; [now split | constructor].
    + inversion Hall as [|? ? [Hk' Hv'] Htail]; subst. cbn in Hk', Hv'.
      destruct (String.eqb k' k); constructor; auto; now split.
Qed.

Lemma tabId_of_set (t : string) : tabId_of t <> "".
Proof. discriminate. Qed.

Lemma contentId_of_set (t : string) : contentId_of t <> "".
Proof.
  unfold contentId_of. destruct (sanitize t); discriminate.
Qed.

Lemma get_key_set (m : JsMap.t) (k c : string) :
  Forall (fun e => fst e <> "" /\ snd e <> "") m ->
  JsMap.get m k = Some c -> k <> "" /\ c <> "".
Proof.
  induction m as [|[k' v'] m IH]; cbn; intros Hall Hget; [discriminate|].
  inversion Hall as [|? ? Hhead Htail]; subst. cbn in Hhead.
  destruct (String.eqb_spec k' k) as [<-|_].
  - injection Hget as <-. exact Hhead.
  - now apply IH.
Qed.

Lemma reorderingMap_store_ok (st : state) :
  store_ok (tabContentMap st) -> store_ok (tabContentMap (reorderingMap st)).
Proof.
  intros [_ Hall]. unfold reorderingMap. cbn [tabContentMap with_tabContentMap].
  generalize store_ok_empty. generalize JsMap.empty as acc.
  induction (Dom.children st) as [|tab tabs IH]; intros acc Hacc; cbn.
  - assumption.
  - apply IH. destruct (JsMap.get (tabContentMap st) (el_id tab)) as [c|] eqn:E;
      [|assumption].
    destruct (Js.truthy c); [|assumption].
    destruct (get_key_set _ _ _ Hall E). now apply store_ok_set.
Qed.

Lemma step_store_ok (st st' : state) :
  step st st' ->
  store_ok (tabContentMap st) -> store_ok (tabContentMap st').
Proof.
  intros Hstep Hok. destruct Hstep as [st p Hcb|st id|st|st id|st|st|st n|st].
  - destruct (capacity_reached st) eqn:Hcap.
    + now rewrite (addTab_at_capacity _ _ Hcap).
    + destruct (JsMap.has (tabContentMap st) (tabId_of (tabTitle p))) eqn:Hhas.
      * rewrite (addTab_existing _ _ Hcap Hhas).
        now rewrite (proj1 (switchTab_fields _ _)).
      * rewrite (proj1 (addTab_fresh _ _ Hcap Hhas Hcb)).
        rewrite <- set_fresh by now apply has_false.
        apply store_ok_set;
          [assumption | apply tabId_of_set | apply contentId_of_set].
  - destruct (JsMap.has (tabContentMap st) id) eqn:Hhas.
    + rewrite (removeTab_map _ _ Hhas). now apply store_ok_delete.
    + now rewrite (removeTab_absent _ _ Hhas).
  - rewrite removeAllTabs_empties_store. apply store_ok_empty.
  - now rewrite (proj1 (switchTab_fields _ _)).
  - unfold nextTab. destruct (_ && _)%bool; [|assumption].
    destruct (Js.index _ _); [|assumption].
    now rewrite (proj1 (switchTab_fields _ _)).
  - unfold previousTab. destruct (Z.gtb _ _); [|assumption].
    destruct (Js.index _ _); [|assumption].
    now rewrite (proj1 (switchTab_fields _ _)).
  - assumption.
  - now apply reorderingMap_store_ok.
Qed.

Lemma constructor_store_ok parent max host :
  store_ok (tabContentMap (constructor parent max host)).
Proof.
  unfold constructor, createNavbar. destruct host; apply store_ok_empty.
Qed.

End Invariant.

(** ** The sanitized id *)

Section Sanitizing.

Lemma lower_spec (c : ascii) :
  Js.is_alnum c = true ->
  is_lower_or_digit (Js.lower c) = true /\
  Js.is_alnum (Js.lower c) = true /\
  Js.lower (Js.lower c) = Js.lower c.
Proof.
  destruct c as [[|] [|] [|] [|] [|] [|] [|] [|]]; vm_compute;
    intros H; try discriminate H; repeat split.
Qed.

Lemma append_assoc (a b c : string) :
  String.append (String.append a b) c = String.append a (String.append b c).
Proof.
  induction a as [|x a IH]; cbn; [reflexivity | now rewrite IH].
Qed.

Lemma append_length (a b : string) :
  String.length (String.append a b) = String.length a + String.length b.
Proof.
  induction a as [|x a IH]; cbn; [reflexivity | now rewrite IH].
Qed.

Lemma append_cancel_r (a b c : string) :
  String.append a c = String.append b c -> a = b.
Proof.
  revert b. induction a as [|x a IH]; intros [|y b] H; cbn in H.
  - reflexivity.
  - apply (f_equal String.length) in H. cbn in H.
    rewrite append_length in H. lia.
  - apply (f_equal String.length) in H. cbn in H.
    rewrite append_length in H. lia.
  - injection H as -> H. f_equal. now apply IH.
Qed.

Lemma sanitize_app (a b : string) :
  sanitize (String.append a b) = String.append (sanitize a) (sanitize b).
Proof.
  unfold sanitize. induction a as [|x a IH]; cbn; [reflexivity|].
  destruct (Js.is_alnum x); cbn; now rewrite IH.
Qed.

Lemma sanitize_chars (t : string) :
  Forall (fun c => is_lower_or_digit c = true)
    (list_ascii_of_string (sanitize t)).
Proof.
  unfold sanitize. induction t as [|c t IH]; cbn; [constructor|].
  destruct (Js.is_alnum c) eqn:E; [|assumption].
  cbn. constructor; [|assumption]. now apply lower_spec.
Qed.

(** X1: a sanitized id holds only digits and lower-case letters, whatever
    the title; so a tab id is [lt-tab-] followed by such characters. *)
Theorem sanitize_alphabet (t : string) :
  Forall (fun c => is_lower_or_digit c = true)
    (list_ascii_of_string (sanitize t)) /\
  tabId_of t = String.append "lt-tab-" (sanitize t).
Proof.
  split; [apply sanitize_chars | reflexivity].
Qed.

(** X2: sanitizing is idempotent: a title that is already a sanitized id
    names the same tab. *)
Theorem sanitize_idempotent (t : string) :
  sanitize (sanitize t) = sanitize t /\
  tabId_of (sanitize t) = tabId_of t /\
  contentId_of (sanitize t) = contentId_of t.
Proof.
  assert (H : sanitize (sanitize t) = sanitize t).
  { unfold sanitize. induction t as [|c t IH]; cbn; [reflexivity|].
    destruct (Js.is_alnum c) eqn:E; [|assumption].
    cbn. destruct (lower_spec c E) as (_ & Ha & Hl).
    rewrite Ha. cbn. now rewrite Hl, IH. }
  unfold tabId_of, contentId_of. now rewrite H.
Qed.

(** X3: titles without a letter or digit all sanitize to the empty id, so
    they all name the one tab [lt-tab-] with the panel [-container]. *)
Theorem no_alnum_title_ids (t : string) :
  no_alnum t = true ->
  sanitize t = "" /\ tabId_of t = "lt-tab-" /\ contentId_of t = "-container".
Proof.
  intros H.
  assert (Hs : sanitize t = "").
  { unfold sanitize, no_alnum in *. induction t as [|c t IH]; [reflexivity|].
    cbn in *. apply andb_true_iff in H. destruct H as [Hc Ht].
    apply negb_true_iff in Hc. rewrite Hc. now apply IH. }
  unfold tabId_of, contentId_of. now rewrite Hs.
Qed.

Lemma no_alnum_title_ids_witness :
  no_alnum "?! -" = true /\ tabId_of "?! -" = "lt-tab-" /\ tabId_of "" = "lt-tab-".
Proof.
  split; [reflexivity|]. split.
  - exact (proj1 (proj2 (no_alnum_title_ids "?! -" eq_refl))).
  - exact (proj1 (proj2 (no_alnum_title_ids "" eq_refl))).
Defined.

(** X4: a character that is no letter or digit, put anywhere in a title,
    changes neither the tab id nor the content id. *)
Theorem sanitize_ignores_punctuation (a b : string) (c : ascii) :
  Js.is_alnum c = false ->
  tabId_of (String.append a (String c b)) = tabId_of (String.append a b) /\
  contentId_of (String.append a (String c b)) = contentId_of (String.append a b).
Proof.
  intros Hc.
  assert (H : sanitize (String.append a (String c b)) = sanitize (String.append a b)).
  { rewrite !sanitize_app. f_equal. unfold sanitize. cbn. now rewrite Hc. }
  unfold tabId_of, contentId_of. now rewrite H.
Qed.

Lemma sanitize_ignores_punctuation_witness :
  tabId_of "my tab" = tabId_of "mytab".
Proof.
  exact (proj1 (sanitize_ignores_punctuation "my" "tab" " " eq_refl)).
Defined.

(** X5: tab id and content id go together: two titles get the same tab id
    exactly when they get the same content id, and exactly when they
    sanitize alike. *)
Theorem tabId_contentId_one_to_one (t1 t2 : string) :
  (tabId_of t1 = tabId_of t2 <-> sanitize t1 = sanitize t2) /\
  (contentId_of t1 = contentId_of t2 <-> sanitize t1 = sanitize t2).
Proof.
  unfold tabId_of, contentId_of. split; split; intros H.
  - cbn in H. now injection H.
  - now rewrite H.
  - now apply append_cancel_r in H.
  - now rewrite H.
Qed.

End Sanitizing.

(** ** The store along a run *)

Section StoreRuns.

Lemma entry_shaped_set (e : string * string) :
  entry_shaped e -> fst e <> "" /\ snd e <> "".
Proof.
  intros [t [Hk Hc]]. rewrite Hk, Hc. split.
  - apply tabId_of_set.
  - apply contentId_of_set.
Qed.

Lemma shaped_store_ok (m : JsMap.t) :
  NoDup (JsMap.keys m) -> Forall entry_shaped m -> store_ok m.
Proof.
  intros Hnd Hsh. split; [assumption|].
  eapply Forall_impl; [|exact Hsh]. apply entry_shaped_set.
Qed.

(** In a shaped store the content id determines the tab id. *)
Lemma shaped_content_key (m : JsMap.t) (k k' c : string) :
  Forall entry_shaped m -> In (k, c) m -> In (k', c) m -> k = k'.
Proof.
  intros Hsh H1 H2. rewrite Forall_forall in Hsh.
  destruct (Hsh _ H1) as [t1 [Hk1 Hc1]]. destruct (Hsh _ H2) as [t2 [Hk2 Hc2]].
  cbn [fst snd] in *. subst k k'. rewrite Hc1 in Hc2.
  unfold contentId_of in Hc2. apply append_cancel_r in Hc2.
  unfold tabId_of. now rewrite Hc2.
Qed.

Lemma shaped_NoDup_contents (m : JsMap.t) :
  NoDup (JsMap.keys m) -> Forall entry_shaped m -> NoDup (map snd m).
Proof.
  induction m as [|[k c] m IH]; cbn; intros Hnd Hsh; [constructor|].
  inversion Hnd as [|? ? Hk Hnd']; subst.
  inversion Hsh as [|? ? Hhead Htail]; subst.
  constructor; [|now apply IH].
  intros Hin. apply in_map_iff in Hin. destruct Hin as [[k' c'] [Hc Hin]].
  cbn in Hc. subst c'. apply Hk.
  assert (k = k') as ->.
  { apply (shaped_content_key ((k, c) :: m) k k' c);
      [assumption | now left | now right]. }
  unfold JsMap.keys. apply in_map_iff. now exists (k', c).
Qed.

Lemma get_In (m : JsMap.t) (k c : string) :
  JsMap.get m k = Some c -> In (k, c) m.
Proof.
  induction m as [|[k' v'] m IH]; cbn; [discriminate|].
  destruct (String.eqb_spec k' k) as [->|_].
  - intros H. injection H as ->. now left.
  - intros H. right. now apply IH.
Qed.

Lemma In_set (m : JsMap.t) (k v : string) (e : string * string) :
  In e (JsMap.set m k v) -> In e m \/ e = (k, v).
Proof.
  induction m as [|[k' v'] m IH]; cbn.
  - intros [<-|[]]. now right.
  - destruct (String.eqb_spec k' k) as [->|_]; cbn.
    + intros [<-|H]; [now right | left; now right].
    + intros [<-|H]; [left; now left|].
      destruct (IH H); [left; now right | now right].
Qed.

(** [reorderingMap] only copies entries. *)
Lemma reorderingMap_entries (st : state) (e : string * string) :
  In e (tabContentMap (reorderingMap st)) -> In e (tabContentMap st).
Proof.
  unfold reorderingMap. cbn [tabContentMap with_tabContentMap].
  assert (Hgen : forall tabs acc,
    (forall x, In x acc -> In x (tabContentMap st)) ->
    In e (fold_left
      (fun (newOrder : JsMap.t) (tab : element) =>
         let tabId := el_id tab in
         let contentId := JsMap.get (tabContentMap st) tabId in
         match contentId with
         | Some c => if Js.truthy c then JsMap.set newOrder tabId c else newOrder
         | None => newOrder
         end) tabs acc) -> In e (tabContentMap st)).
  { induction tabs as [|tab tabs IH]; intros acc Hacc; cbn.
    - apply Hacc.
    - apply IH. destruct (JsMap.get (tabContentMap st) (el_id tab)) as [c|] eqn:E;
        [|assumption].
      destruct (Js.truthy c); [|assumption].
      intros x Hx. destruct (In_set _ _ _ _ Hx) as [H | ->];
        [now apply Hacc | now apply get_In]. }
  apply Hgen. intros x [].
Qed.

Lemma step_shaped (st st' : state) :
  step st st' ->
  Forall entry_shaped (tabContentMap st) ->
  Forall entry_shaped (tabContentMap st').
Proof.
  intros Hstep Hsh. destruct Hstep as [st p Hcb|st id|st|st id|st|st|st n|st].
  - destruct (capacity_reached st) eqn:Hcap.
    + now rewrite (addTab_at_capacity _ _ Hcap).
    + destruct (JsMap.has (tabContentMap st) (tabId_of (tabTitle p))) eqn:Hhas.
      * rewrite (addTab_existing _ _ Hcap Hhas).
        now rewrite (proj1 (switchTab_fields _ _)).
      * rewrite (proj1 (addTab_fresh _ _ Hcap Hhas Hcb)).
        apply Forall_app. split; [assumption|].
        constructor; [|constructor]. now exists (tabTitle p).
  - destruct (JsMap.has (tabContentMap st) id) eqn:Hhas.
    + rewrite (removeTab_map _ _ Hhas). unfold JsMap.delete.
      rewrite Forall_forall in *. intros e He.
      apply filter_In in He. now apply Hsh.
    + now rewrite (removeTab_absent _ _ Hhas).
  - rewrite removeAllTabs_empties_store. constructor.
  - now rewrite (proj1 (switchTab_fields _ _)).
  - unfold nextTab. destruct (_ && _)%bool; [|assumption].
    destruct (Js.index _ _); [|assumption].
    now rewrite (proj1 (switchTab_fields _ _)).
  - unfold previousTab. destruct (Z.gtb _ _); [|assumption].
    destruct (Js.index _ _); [|assumption].
    now rewrite (proj1 (switchTab_fields _ _)).
  - assumption.
  - rewrite Forall_forall in *. intros e He.
    apply Hsh. now apply reorderingMap_entries.
Qed.

Lemma step_bijective (st st' : state) :
  step st st' ->
  bijective_store (tabContentMap st) -> bijective_store (tabContentMap st').
Proof.
  intros Hstep (Hnd & _ & Hsh).
  pose proof (step_store_ok _ _ Hstep (shaped_store_ok _ Hnd Hsh)) as [Hnd' _].
  pose proof (step_shaped _ _ Hstep Hsh) as Hsh'.
  repeat split; try assumption. now apply shaped_NoDup_contents.
Qed.

Lemma runs_bijective (st0 st : state) :
  runs step st0 st ->
  bijective_store (tabContentMap st0) -> bijective_store (tabContentMap st).
Proof.
  intros Hrun H0. induction Hrun as [st|st1 st2 st3 _ IH Hstep].
  - assumption.
  - eapply step_bijective; eauto.
Qed.

Lemma constructor_bijective parent max host :
  bijective_store (tabContentMap (constructor parent max host)).
Proof.
  unfold constructor, createNavbar. destruct host; repeat split; constructor.
Qed.

(** X6: whatever methods are called after construction, and in whatever
    order, the store keeps tab ids and content ids one to one: no key twice,
    no content id twice, and each entry's two ids derived from one title. *)
Theorem runs_keep_bijection (parent : string) (max : option Z)
    (host : option (list element)) (st : state) :
  runs step (constructor parent max host) st ->
  bijective_store (tabContentMap st).
Proof.
  intros Hrun. eapply runs_bijective; [exact Hrun|].
  apply constructor_bijective.
Qed.

Lemma runs_keep_bijection_witness :
  bijective_store
    (tabContentMap
       (removeTab (addTab (addTab (page0 None) (titled "A")) (titled "B"))
          "lt-tab-a")).
Proof.
  apply (runs_keep_bijection "tabs-container" None (Some [])).
  eapply runs_next; [eapply runs_next; [eapply runs_next; [apply runs_refl|]|]|].
  - exact (step_addTab _ (titled "A") I).
  - exact (step_addTab _ (titled "B") I).
  - apply step_removeTab.
Defined.

End StoreRuns.

(** ** More on adding and removing *)

Section Lifecycle.

(** X7: [addTab] never takes the count past a [maxNumTabs] that is a
    positive integer and that it had not passed already, and it never
    changes the count by more than one tab. *)
Theorem addTab_respects_capacity (st : state) (p : params) (n : Z) :
  maxNumTabs st = Some n ->
  (0 < n)%Z ->
  (Z.of_nat (getTabCount st) <= n)%Z ->
  callback_keeps_store p ->
  (Z.of_nat (getTabCount (addTab st p)) <= n)%Z /\
  getTabCount st <= getTabCount (addTab st p) <= S (getTabCount st).
Proof.
  intros Hmax Hpos Hle Hcb. unfold getTabCount in *.
  destruct (capacity_reached st) eqn:Hcap.
  - rewrite (addTab_at_capacity _ _ Hcap).
    change (tabContentMap (emit st capacity_alert)) with (tabContentMap st).
    lia.
  - destruct (JsMap.has (tabContentMap st) (tabId_of (tabTitle p))) eqn:Hhas.
    + rewrite (addTab_existing _ _ Hcap Hhas).
      rewrite (proj1 (switchTab_fields _ _)). lia.
    + rewrite (proj1 (addTab_fresh _ _ Hcap Hhas Hcb)).
      unfold JsMap.size. rewrite length_app. cbn [List.length].
      apply capacity_reached_false in Hcap.
      destruct Hcap as [Hc|[Hc|[n' [Hc Hlt]]]]; rewrite Hmax in Hc;
        try discriminate.
      * injection Hc as ->. lia.
      * injection Hc as ->. unfold getTabCount, JsMap.size in Hlt. lia.
Qed.

Lemma addTab_respects_capacity_witness :
  (Z.of_nat (getTabCount (addTab twoOfTwo (titled "C"))) <= 2)%Z /\
  (Z.of_nat (getTabCount (addTab (page0 (Some 2%Z)) (titled "A"))) <= 2)%Z.
Proof.
  assert (Hpos : (0 < 2)%Z) by lia.
  split.
  - assert (Hle : (Z.of_nat (getTabCount twoOfTwo) <= 2)%Z)
      by (vm_compute; discriminate).
    exact (proj1 (addTab_respects_capacity twoOfTwo (titled "C") 2
                    eq_refl Hpos Hle I)).
  - assert (Hle : (Z.of_nat (getTabCount (page0 (Some 2%Z))) <= 2)%Z)
      by (vm_compute; discriminate).
    exact (proj1 (addTab_respects_capacity (page0 (Some 2%Z)) (titled "A") 2
                    eq_refl Hpos Hle I)).
Defined.

(** X8: removing a tab other than the active one, while the active one is
    in the store, leaves the focus alone: only that key leaves the store, the
    others keep their order, and nothing is logged. *)
Theorem removeTab_other_keeps_focus (st : state) (idTab : string) :
  JsMap.has (tabContentMap st) idTab = true ->
  JsMap.has (tabContentMap st) (getActiveTab st) = true ->
  getActiveTab st <> idTab ->
  getActiveTab (removeTab st idTab) = getActiveTab st /\
  getAllTabs (removeTab st idTab)
  = filter (fun k => negb (String.eqb k idTab)) (getAllTabs st) /\
  console (removeTab st idTab) = console st.
Proof.
  intros Hhas Hact Hne. unfold getActiveTab, getAllTabs in *.
  rewrite (removeTab_map _ _ Hhas), keys_delete.
  rewrite (removeTab_present _ _ Hhas). cbv zeta.
  assert (Hstill : JsMap.has (JsMap.delete (tabContentMap st) idTab)
                     (openedId st) = true).
  { apply has_In. rewrite keys_delete. apply filter_In. split.
    - now apply has_In.
    - now apply negb_true_iff, String.eqb_neq. }
  rewrite Hstill.
  destruct (after_delete_fields st idTab) as (_ & Ho & _ & Hc).
  now rewrite Ho, Hc.
Qed.

Lemma removeTab_other_keeps_focus_witness :
  getActiveTab (removeTab tabsABC "lt-tab-a") = "lt-tab-c" /\
  getAllTabs (removeTab tabsABC "lt-tab-a") = ["lt-tab-b"; "lt-tab-c"].
Proof.
  assert (Hne : getActiveTab tabsABC <> "lt-tab-a")
    by (vm_compute; discriminate).
  pose proof (removeTab_other_keeps_focus tabsABC "lt-tab-a"
                eq_refl eq_refl Hne) as (Hact & Hall & _).
  split; [exact Hact | exact Hall].
Defined.

(** X9: [switchTab] always ends with the requested id active, and never
    touches the store, the capacity or the console, nor adds or removes an
    element of the page. *)
Theorem switchTab_frame (st : state) (id : string) :
  getActiveTab (switchTab st id) = id /\
  tabContentMap (switchTab st id) = tabContentMap st /\
  maxNumTabs (switchTab st id) = maxNumTabs st /\
  console (switchTab st id) = console st /\
  rendered (switchTab st id) = rendered st /\
  panel_ids (switchTab st id) = panel_ids st.
Proof.
  destruct (switchTab_fields st id) as (Hm & Hx & Hc).
  destruct (switchTab_ids st id) as (Hr & Hp).
  repeat split; try assumption. apply switchTab_openedId.
Qed.

Lemma removeTab_present_console (st : state) (idTab : string) :
  JsMap.has (tabContentMap st) idTab = true ->
  console (removeTab st idTab) = console st /\
  maxNumTabs (removeTab st idTab) = maxNumTabs st.
Proof.
  intros H. rewrite (removeTab_present _ _ H). cbv zeta.
  destruct (after_delete_fields st idTab) as (_ & _ & Hx & Hc).
  repeat match goal with
         | |- context [if ?b then _ else _] => destruct b
         | |- context [match ?o with Some _ => _ | None => _ end] => destruct o
         end;
    try (split; assumption); try (cbn; split; assumption);
    rewrite (proj1 (proj2 (switchTab_fields _ _))),
            (proj2 (proj2 (switchTab_fields _ _))); split; assumption.
Qed.

Lemma forEach_removeTab_quiet (slots : list string) :
  forall st,
    console (forEach (fun _ tabId s => removeTab s tabId) slots st) = console st /\
    maxNumTabs (forEach (fun _ tabId s => removeTab s tabId) slots st)
    = maxNumTabs st.
Proof.
  induction slots as [|k slots IH]; intros st; cbn [forEach]; [now split|].
  destruct (JsMap.get (tabContentMap st) k) as [c|] eqn:E; [|apply IH].
  destruct (IH (removeTab st k)) as [Hc Hx].
  destruct (removeTab_present_console _ _ (get_Some_has _ _ _ E)) as [Hc' Hx'].
  split; congruence.
Qed.

(** X10: [removeAllTabs] empties the store from every state, without a
    single not-found warning (each id is still stored when its turn comes)
    and without touching the capacity; run a second time it changes
    nothing. *)
Theorem removeAllTabs_total (st : state) :
  getAllTabs (removeAllTabs st) = [] /\
  console (removeAllTabs st) = console st /\
  maxNumTabs (removeAllTabs st) = maxNumTabs st /\
  removeAllTabs (removeAllTabs st) = removeAllTabs st.
Proof.
  unfold getAllTabs. rewrite removeAllTabs_empties_store.
  split; [reflexivity|].
  destruct (forEach_removeTab_quiet (JsMap.keys (tabContentMap st)) st)
    as [Hc Hx].
  split; [exact Hc|]. split; [exact Hx|].
  unfold removeAllTabs at 1. now rewrite removeAllTabs_empties_store.
Qed.

(** X11: adding a tab under a fresh id and removing it again gives back
    the store as it was, entry for entry. *)
Theorem addTab_removeTab_round_trip (st : state) (p : params) :
  capacity_reached st = false ->
  JsMap.has (tabContentMap st) (tabId_of (tabTitle p)) = false ->
  callback_keeps_store p ->
  tabContentMap (removeTab (addTab st p) (tabId_of (tabTitle p)))
  = tabContentMap st.
Proof.
  intros Hcap Hfresh Hcb.
  destruct (addTab_fresh _ _ Hcap Hfresh Hcb) as [Hm _].
  assert (Hhas : JsMap.has (tabContentMap (addTab st p)) (tabId_of (tabTitle p))
                 = true).
  { apply has_In. rewrite Hm. unfold JsMap.keys.
    rewrite map_app, in_app_iff. right. now left. }
  rewrite (removeTab_map _ _ Hhas), Hm.
  rewrite (delete_middle (tabContentMap st) []); [apply app_nil_r | | intros []].
  now apply has_false.
Qed.

Lemma addTab_removeTab_round_trip_witness :
  tabContentMap (removeTab (addTab tabsABC (titled "D")) "lt-tab-d")
  = tabContentMap tabsABC.
Proof.
  exact (addTab_removeTab_round_trip tabsABC (titled "D") eq_refl eq_refl I).
Defined.

(** X12: when the navbar was never created (the host container was not
    found at construction), [addTab] still stores and focuses the tab, but
    no tab button is rendered: the navbar stays undefined while the store
    grows. *)
Theorem addTab_without_host (st : state) (p : params) :
  navbarDiv st = None ->
  capacity_reached st = false ->
  JsMap.has (tabContentMap st) (tabId_of (tabTitle p)) = false ->
  addContent p = None ->
  getAllTabs (addTab st p) = getAllTabs st ++ [tabId_of (tabTitle p)] /\
  getActiveTab (addTab st p) = tabId_of (tabTitle p) /\
  navbarDiv (addTab st p) = None /\
  rendered (addTab st p) = [].
Proof.
  intros Hnav Hcap Hfresh Hnone.
  assert (Hcb : callback_keeps_store p).
  { unfold callback_keeps_store. now rewrite Hnone. }
  destruct (addTab_fresh _ _ Hcap Hfresh Hcb) as [Hm Ho].
  unfold getAllTabs, getActiveTab. rewrite Hm, Ho.
  split; [unfold JsMap.keys; now rewrite map_app|]. split; [reflexivity|].
  assert (Hadd : addTab st p
    = switchTab
        (with_tabContentMap st
           (JsMap.set (tabContentMap st) (tabId_of (tabTitle p))
              (contentId_of (tabTitle p))))
        (tabId_of (tabTitle p))).
  { unfold addTab. fold (tabId_of (tabTitle p)). fold (contentId_of (tabTitle p)).
    rewrite Hcap, Hfresh, Hnone. unfold appendTab, createTabContent.
    rewrite Hnav. cbv iota. now rewrite Hnav. }
  rewrite Hadd.
  assert (Hn : navbarDiv (switchTab
    (with_tabContentMap st
       (JsMap.set (tabContentMap st) (tabId_of (tabTitle p))
          (contentId_of (tabTitle p))))
    (tabId_of (tabTitle p))) = None).
  { unfold switchTab. destruct (String.eqb _ _); [exact Hnav|].
    cbn [navbarDiv with_openedId].
    unfold Dom.active, Dom.display, Dom.on_first.
    repeat (cbn [navbarDiv with_hostChildren with_tabContentMap openedId];
            try rewrite Hnav;
            match goal with
            | |- context [if ?b then _ else _] => destruct b
            | _ => idtac
            end); cbn; try rewrite Hnav; reflexivity. }
  split; [exact Hn|].
  unfold rendered, Dom.children. now rewrite Hn.
Qed.

Lemma addTab_without_host_witness :
  getAllTabs (addTab (constructor "missing" None None) (titled "A"))
  = ["lt-tab-a"] /\
  rendered (addTab (constructor "missing" None None) (titled "A")) = [].
Proof.
  pose proof (addTab_without_host (constructor "missing" None None)
                (titled "A") eq_refl eq_refl eq_refl eq_refl)
    as (Hall & _ & _ & Hr).
  split; [exact Hall | exact Hr].
Defined.

End Lifecycle.

(** ** Going to the next and the previous tab *)

Section Navigation.

Lemma indexOf_absent (arr : list string) (x : string) :
  ~ In x arr -> Js.indexOf arr x = (-1)%Z.
Proof.
  induction arr as [|y arr IH]; cbn; intros H; [reflexivity|].
  destruct (String.eqb_spec y x) as [->|_]; [tauto|].
  rewrite IH by tauto. reflexivity.
Qed.

Lemma nextTab_inside (st : state) (pre post : list string) (k k' : string) :
  getAllTabs st = pre ++ k :: k' :: post ->
  ~ In k pre ->
  openedId st = k ->
  nextTab st = switchTab st k'.
Proof.
  intros Hkeys Hfresh Hact. unfold nextTab. rewrite Hkeys, Hact.
  rewrite (indexOf_app_fresh _ _ _ Hfresh), length_app. cbn [List.length].
  destruct (Z.eqb_spec (Z.of_nat (List.length pre)) (-1)); [lia|].
  destruct (Z.ltb_spec (Z.of_nat (List.length pre))
              (Z.of_nat (List.length pre + S (S (List.length post))) - 1)); [|lia].
  cbn [negb andb].
  replace (Z.of_nat (List.length pre) + 1)%Z
    with (Z.of_nat (S (List.length pre))) by lia.
  rewrite index_of_nat, nth_error_app2 by lia.
  replace (S (List.length pre) - List.length pre) with 1 by lia. reflexivity.
Qed.

Lemma previousTab_inside (st : state) (pre post : list string) (k k' : string) :
  getAllTabs st = pre ++ k' :: k :: post ->
  ~ In k pre -> k <> k' ->
  openedId st = k ->
  previousTab st = switchTab st k'.
Proof.
  intros Hkeys Hfresh Hne Hact. unfold previousTab. rewrite Hkeys, Hact.
  replace (pre ++ k' :: k :: post) with ((pre ++ [k']) ++ k :: post)
    by now rewrite <- app_assoc.
  rewrite indexOf_app_fresh.
  2:{ rewrite in_app_iff. intros [H|[H|[]]]; [tauto | congruence]. }
  rewrite length_app. cbn [List.length].
  destruct (Z.gtb_spec (Z.of_nat (List.length pre + 1)) 0); [|lia].
  replace (Z.of_nat (List.length pre + 1) - 1)%Z
    with (Z.of_nat (List.length pre)) by lia.
  rewrite index_of_nat, <- app_assoc, nth_error_app2 by lia.
  now rewrite Nat.sub_diag.
Qed.

Lemma NoDup_middle (pre post : list string) (a b : string) :
  NoDup (pre ++ a :: b :: post) ->
  ~ In a pre /\ ~ In b pre /\ a <> b.
Proof.
  intros H. pose proof (NoDup_remove_2 _ _ _ H) as Ha.
  pose proof (NoDup_remove_1 _ _ _ H) as H'.
  pose proof (NoDup_remove_2 _ _ _ H') as Hb.
  rewrite in_app_iff in Ha, Hb. cbn in Ha.
  repeat split; try tauto. intros ->. tauto.
Qed.

(** X13: with the active tab in the store and a tab after it, [nextTab]
    moves the focus to that next tab and changes neither the store nor the
    console. *)
Theorem nextTab_moves_right (st : state) (pre post : list string) (k k' : string) :
  getAllTabs st = pre ++ k :: k' :: post ->
  NoDup (getAllTabs st) ->
  getActiveTab st = k ->
  getActiveTab (nextTab st) = k' /\
  getAllTabs (nextTab st) = getAllTabs st /\
  console (nextTab st) = console st.
Proof.
  intros Hkeys Hnd Hact. rewrite Hkeys in Hnd.
  destruct (NoDup_middle _ _ _ _ Hnd) as (Hk & _ & _).
  rewrite (nextTab_inside _ _ _ _ _ Hkeys Hk Hact).
  destruct (switchTab_fields st k') as (Hm & _ & Hc).
  unfold getActiveTab, getAllTabs. rewrite Hm, Hc, switchTab_openedId.
  repeat split.
Qed.

Lemma nextTab_moves_right_witness :
  getActiveTab (nextTab (switchTab tabsABC "lt-tab-a")) = "lt-tab-b".
Proof.
  exact (proj1 (nextTab_moves_right (switchTab tabsABC "lt-tab-a")
                  [] ["lt-tab-c"] "lt-tab-a" "lt-tab-b" eq_refl
                  (distinctb_NoDup ["lt-tab-a"; "lt-tab-b"; "lt-tab-c"] eq_refl)
                  eq_refl)).
Defined.

(** X14: with the active tab in the store and a tab before it,
    [previousTab] moves the focus to that tab and changes neither the store
    nor the console. *)
Theorem previousTab_moves_left (st : state) (pre post : list string)
    (k k' : string) :
  getAllTabs st = pre ++ k' :: k :: post ->
  NoDup (getAllTabs st) ->
  getActiveTab st = k ->
  getActiveTab (previousTab st) = k' /\
  getAllTabs (previousTab st) = getAllTabs st /\
  console (previousTab st) = console st.
Proof.
  intros Hkeys Hnd Hact. rewrite Hkeys in Hnd.
  destruct (NoDup_middle _ _ _ _ Hnd) as (_ & Hk & Hne).
  rewrite (previousTab_inside _ _ _ _ _ Hkeys Hk (not_eq_sym Hne) Hact).
  destruct (switchTab_fields st k') as (Hm & _ & Hc).
  unfold getActiveTab, getAllTabs. rewrite Hm, Hc, switchTab_openedId.
  repeat split.
Qed.

Lemma previousTab_moves_left_witness :
  getActiveTab (previousTab tabsABC) = "lt-tab-b".
Proof.
  exact (proj1 (previousTab_moves_left tabsABC
                  ["lt-tab-a"] [] "lt-tab-c" "lt-tab-b" eq_refl
                  (distinctb_NoDup ["lt-tab-a"; "lt-tab-b"; "lt-tab-c"] eq_refl)
                  eq_refl)).
Defined.

(** X15: [nextTab] on the last tab, or with an active id that is not in
    the store (the empty one included), only logs its warning. *)
Theorem nextTab_at_end_warns (st : state) :
  (~ In (getActiveTab st) (getAllTabs st) \/
   exists pre, getAllTabs st = pre ++ [getActiveTab st] /\
               ~ In (getActiveTab st) pre) ->
  nextTab st
  = emit st (ConsoleWarn "Currently on the last tab. No next tab available.").
Proof.
  unfold getActiveTab. intros [Habs|[pre [Hkeys Hfresh]]]; unfold nextTab.
  - rewrite (indexOf_absent _ _ Habs). reflexivity.
  - rewrite Hkeys, (indexOf_app_fresh _ _ _ Hfresh), length_app.
    cbn [List.length].
    destruct (Z.ltb_spec (Z.of_nat (List.length pre))
                (Z.of_nat (List.length pre + 1) - 1)); [lia|].
    now rewrite andb_false_r.
Qed.

Lemma nextTab_at_end_warns_witness :
  getActiveTab (nextTab tabsABC) = "lt-tab-c" /\
  getActiveTab (nextTab (page0 None)) = "".
Proof.
  split.
  - rewrite (nextTab_at_end_warns tabsABC); [reflexivity|].
    right. exists ["lt-tab-a"; "lt-tab-b"]. split; [reflexivity|].
    vm_compute. intros [H|[H|[]]]; discriminate H.
  - rewrite (nextTab_at_end_warns (page0 None)); [reflexivity|].
    left. intros [].
Defined.

(** X16: [previousTab] on the first tab, or with an active id that is not
    in the store, only logs its warning. *)
Theorem previousTab_at_start_warns (st : state) :
  (~ In (getActiveTab st) (getAllTabs st) \/
   exists rest, getAllTabs st = getActiveTab st :: rest) ->
  previousTab st
  = emit st (ConsoleWarn "Currently on the first tab. No previous tab available.").
Proof.
  unfold getActiveTab. intros [Habs|[rest Hkeys]]; unfold previousTab.
  - rewrite (indexOf_absent _ _ Habs). reflexivity.
  - rewrite Hkeys. cbn [Js.indexOf]. now rewrite String.eqb_refl.
Qed.

Lemma previousTab_at_start_warns_witness :
  getActiveTab (previousTab (switchTab tabsABC "lt-tab-a")) = "lt-tab-a".
Proof.
  rewrite (previousTab_at_start_warns (switchTab tabsABC "lt-tab-a"));
    [reflexivity|].
  right. exists ["lt-tab-b"; "lt-tab-c"]. reflexivity.
Defined.

(** X17: [previousTab] undoes [nextTab]: after a move to the right, a move
    to the left gives the focus back to the tab it came from. *)
Theorem nextTab_previousTab_round_trip (st : state) (pre post : list string)
    (k k' : string) :
  getAllTabs st = pre ++ k :: k' :: post ->
  NoDup (getAllTabs st) ->
  getActiveTab st = k ->
  getActiveTab (previousTab (nextTab st)) = k /\
  getAllTabs (previousTab (nextTab st)) = getAllTabs st.
Proof.
  intros Hkeys Hnd Hact. rewrite Hkeys in Hnd.
  destruct (NoDup_middle _ _ _ _ Hnd) as (Hk & Hk' & Hne).
  rewrite (nextTab_inside _ _ _ _ _ Hkeys Hk Hact).
  assert (Hkeys' : getAllTabs (switchTab st k') = pre ++ k :: k' :: post).
  { unfold getAllTabs in *. now rewrite (proj1 (switchTab_fields _ _)). }
  rewrite (previousTab_inside _ _ _ _ _ Hkeys' Hk' (not_eq_sym Hne)
             (switchTab_openedId _ _)).
  unfold getActiveTab, getAllTabs in *.
  rewrite switchTab_openedId, !(proj1 (switchTab_fields _ _)).
  now split.
Qed.

Lemma nextTab_previousTab_round_trip_witness :
  getActiveTab (previousTab (nextTab (switchTab tabsABC "lt-tab-b")))
  = "lt-tab-b".
Proof.
  exact (proj1 (nextTab_previousTab_round_trip (switchTab tabsABC "lt-tab-b")
                  ["lt-tab-a"] [] "lt-tab-b" "lt-tab-c" eq_refl
                  (distinctb_NoDup ["lt-tab-a"; "lt-tab-b"; "lt-tab-c"] eq_refl)
                  eq_refl)).
Defined.

End Navigation.

(** ** More on reordering *)

Section ReorderingMore.

Lemma kept_ext (m m' : JsMap.t) (ids : list string) :
  (forall id, In id ids -> JsMap.get m id = JsMap.get m' id) ->
  kept m ids = kept m' ids.
Proof.
  unfold kept. induction ids as [|id ids IH]; intros H; cbn; [reflexivity|].
  rewrite (H id) by now left.
  rewrite IH; [reflexivity|]. intros x Hx. apply H. now right.
Qed.

Lemma kept_keys (m : JsMap.t) :
  NoDup (JsMap.keys m) -> kept m (JsMap.keys m) = m.
Proof.
  induction m as [|[k c] m IH]; intros Hnd; [reflexivity|].
  cbn [JsMap.keys map fst] in *. fold (JsMap.keys m) in *.
  inversion Hnd as [|? ? Hk Hnd']; subst.
  cbn [kept flat_map JsMap.get]. rewrite String.eqb_refl. cbn [app]. f_equal.
  transitivity (kept m (JsMap.keys m)); [|exact (IH Hnd')].
  apply (kept_ext ((k, c) :: m) m (JsMap.keys m)).
  intros id Hid. cbn. destruct (String.eqb_spec k id) as [->|_]; [|reflexivity].
  contradiction.
Qed.

Lemma with_tabContentMap_same (st : state) :
  with_tabContentMap st (tabContentMap st) = st.
Proof. now destruct st. Qed.

Lemma get_kept_all (m : JsMap.t) (ids : list string) (id : string) :
  In id ids -> JsMap.get (kept m ids) id = JsMap.get m id.
Proof.
  intros Hin. destruct (JsMap.has m id) eqn:E.
  - apply get_kept. rewrite keys_kept. apply filter_In. now split.
  - rewrite (proj2 (get_None m id) E). apply get_None, has_false.
    rewrite keys_kept, filter_In. intros [_ H]. congruence.
Qed.

Lemma reorderingMap_fixed (st : state) :
  store_ok (tabContentMap st) ->
  rendered st = getAllTabs st ->
  reorderingMap st = st.
Proof.
  intros Hok Hsame.
  assert (Hnd : NoDup (rendered st)) by (rewrite Hsame; apply Hok).
  pose proof (reorderingMap_kept _ Hok Hnd) as Hm.
  rewrite Hsame in Hm. unfold getAllTabs in Hm.
  rewrite (kept_keys _ (proj1 Hok)) in Hm.
  unfold reorderingMap in *. cbn [tabContentMap with_tabContentMap] in Hm.
  rewrite Hm. apply with_tabContentMap_same.
Qed.

(** X18: when the navbar already shows the tabs in the store's order,
    [reorderingMap] changes nothing at all. *)
Theorem reorderingMap_in_order_is_identity (st : state) :
  store_ok (tabContentMap st) ->
  rendered st = getAllTabs st ->
  reorderingMap st = st /\ getAllTabs (reorderingMap st) = getAllTabs st.
Proof.
  intros Hok Hsame. now rewrite (reorderingMap_fixed _ Hok Hsame).
Qed.

Lemma reorderingMap_in_order_is_identity_witness :
  reorderingMap tabsABC = tabsABC.
Proof.
  exact (proj1 (reorderingMap_in_order_is_identity tabsABC
           (store_okb_spec (tabContentMap tabsABC) eq_refl) eq_refl)).
Defined.

(** X19: [reorderingMap] is idempotent: with the navbar untouched, a
    second rebuild gives the same state as the first. *)
Theorem reorderingMap_idempotent (st : state) :
  store_ok (tabContentMap st) ->
  NoDup (rendered st) ->
  reorderingMap (reorderingMap st) = reorderingMap st.
Proof.
  intros Hok Hnd.
  pose proof (reorderingMap_store_ok _ Hok) as Hok'.
  assert (Hr : rendered (reorderingMap st) = rendered st) by reflexivity.
  pose proof (reorderingMap_kept _ Hok Hnd) as Hm.
  assert (Hnd' : NoDup (rendered (reorderingMap st))) by now rewrite Hr.
  pose proof (reorderingMap_kept _ Hok' Hnd') as Hm'.
  rewrite Hr, Hm in Hm'.
  rewrite (kept_ext _ (tabContentMap st)) in Hm'
    by (intros id Hid; now apply get_kept_all).
  rewrite <- Hm in Hm'.
  unfold reorderingMap at 1. unfold reorderingMap at 1 in Hm'.
  cbn [tabContentMap with_tabContentMap] in Hm'. rewrite Hm'.
  unfold reorderingMap at 2. cbn.
  unfold reorderingMap. reflexivity.
Qed.

Lemma reorderingMap_idempotent_witness :
  reorderingMap (reorderingMap shuffled) = reorderingMap shuffled /\
  getAllTabs (reorderingMap shuffled) = ["lt-tab-c"; "lt-tab-a"].
Proof.
  split; [|reflexivity].
  exact (reorderingMap_idempotent shuffled
           (store_okb_spec (tabContentMap shuffled) eq_refl)
           (distinctb_NoDup ["lt-tab-c"; "lt-tab-x"; "lt-tab-a"] eq_refl)).
Defined.

End ReorderingMore.

(** ** The page mirrors the store *)

Section PageMirror.

(** A tab id is never a content id, and neither is ["undefined"]. *)
Lemma tabId_not_contentId (t t' : string) : tabId_of t <> contentId_of t'.
Proof.
  unfold tabId_of, contentId_of. intros H.
  pose proof (sanitize_chars t') as Hchars.
  destruct (sanitize t') as [|c0 [|c1 [|c2 s]]]; cbn in H; try discriminate H.
  injection H as _ _ H2 _. subst c2.
  inversion Hchars as [|? ? _ Hc1]; subst.
  inversion Hc1 as [|? ? _ Hc2]; subst.
  inversion Hc2 as [|? ? Hbad _]; subst. discriminate Hbad.
Qed.

Lemma undefined_not_tabId (t : string) : tabId_of t <> "undefined".
Proof. discriminate. Qed.

Lemma undefined_not_contentId (t : string) : contentId_of t <> "undefined".
Proof.
  unfold contentId_of. intros H. apply (f_equal String.length) in H.
  rewrite append_length in H. cbn in H. lia.
Qed.













Lemma update_first_keeps_active (c d : string) (f : string -> bool)
    (l : list element) :
  tabs_show f l -> tabs_show f (Dom.update_first c (Dom.set_display d) l).
Proof.
  unfold tabs_show. induction l as [|e l IH]; cbn; intros Hall; [constructor|].
  inversion Hall as [|? ? Hhead Htail]; subst.
  destruct (Dom.has_id c e); constructor; auto.
Qed.

End PageMirror.


Section PageMirrorSteps.








End PageMirrorSteps.

Section PageMirrorRemoval.






End PageMirrorRemoval.

Section PageMirrorAdding.

Lemma idle_keeps_store (p : params) : callback_idle p -> callback_keeps_store p.
Proof.
  unfold callback_idle, callback_keeps_store.
  destruct (addContent p) as [callback|]; [|trivial].
  intros H cid x. now rewrite H.
Qed.

(** A fresh tab, step by step, when the navbar exists. *)
Lemma addTab_fresh_page (st : state) (p : params) (tabs : list element) :
  capacity_reached st = false ->
  JsMap.has (tabContentMap st) (tabId_of (tabTitle p)) = false ->
  callback_idle p ->
  navbarDiv st = Some tabs ->
  addTab st p =
  switchTab
    (mkState (parentDiv st)
       (Some (tabs ++ [createTab (tabTitle p) (tabId_of (tabTitle p))
                         (or_default (showCloseButton p) true)
                         (or_default (allowDragAndDrop p) true)]))
       (maxNumTabs st) (openedId st)
       (tabContentMap st ++ [(tabId_of (tabTitle p), contentId_of (tabTitle p))])
       (hostChildren st
        ++ [mkElement (contentId_of (tabTitle p)) "" "block" false false false])
       (console st))
    (tabId_of (tabTitle p)).
Proof.
  intros Hcap Hfresh Hidle Hnav. unfold addTab.
  fold (tabId_of (tabTitle p)). fold (contentId_of (tabTitle p)).
  rewrite Hcap, Hfresh.
  assert (Hst3 :
    with_tabContentMap
      (createTabContent
         (appendTab st (createTab (tabTitle p) (tabId_of (tabTitle p))
                          (or_default (showCloseButton p) true)
                          (or_default (allowDragAndDrop p) true)))
         (tabId_of (tabTitle p)))
      (JsMap.set
         (tabContentMap
            (createTabContent
               (appendTab st (createTab (tabTitle p) (tabId_of (tabTitle p))
                                (or_default (showCloseButton p) true)
                                (or_default (allowDragAndDrop p) true)))
               (tabId_of (tabTitle p))))
         (tabId_of (tabTitle p)) (contentId_of (tabTitle p)))
    = mkState (parentDiv st)
        (Some (tabs ++ [createTab (tabTitle p) (tabId_of (tabTitle p))
                          (or_default (showCloseButton p) true)
                          (or_default (allowDragAndDrop p) true)]))
        (maxNumTabs st) (openedId st)
        (tabContentMap st
         ++ [(tabId_of (tabTitle p), contentId_of (tabTitle p))])
        (hostChildren st
         ++ [mkElement (contentId_of (tabTitle p)) "" "block" false false false])
        (console st)).
  { rewrite createTabContent_map, appendTab_map.
    rewrite set_fresh by now apply has_false.
    unfold createTabContent, appendTab. rewrite Hnav.
    rewrite createTabContent_id. reflexivity. }
  unfold callback_idle in Hidle.
  destruct (addContent p) as [callback|]; [rewrite Hidle|]; now rewrite Hst3.
Qed.


End PageMirrorAdding.

(** ** What holds of the page after any calls *)

Section PageRuns.









End PageRuns.

(** ** The page after single calls *)

Section PageCalls.

(** X25: the ids the class hands out never collide: no tab id is a content
    id, and neither kind is the string ["undefined"] that a failed lookup
    turns into. *)
Theorem ids_never_collide (t t' : string) :
  tabId_of t <> contentId_of t' /\
  tabId_of t <> "undefined" /\
  contentId_of t <> "undefined".
Proof.
  split; [apply tabId_not_contentId|].
  split; [apply undefined_not_tabId | apply undefined_not_contentId].
Qed.



(** X27: with the navbar created, a title under a fresh id and below
    the guard puts one tab button at the right end of the navbar and stores
    the content id for it; and the id [createTabContent] gives the panel,
    cut out of the tab id, is that stored content id. *)
Theorem addTab_renders_tab_and_panel (st : state) (p : params)
    (tabs : list element) :
  navbarDiv st = Some tabs ->
  capacity_reached st = false ->
  JsMap.has (tabContentMap st) (tabId_of (tabTitle p)) = false ->
  callback_idle p ->
  rendered (addTab st p) = rendered st ++ [tabId_of (tabTitle p)] /\
  JsMap.get (tabContentMap (addTab st p)) (tabId_of (tabTitle p))
  = Some (contentId_of (tabTitle p)) /\
  String.append (Js.replace "lt-tab-" "" (tabId_of (tabTitle p))) "-container"
  = contentId_of (tabTitle p).
Proof.
  intros Hnav Hcap Hfresh Hidle.
  pose proof (addTab_fresh _ _ Hcap Hfresh (idle_keeps_store _ Hidle)) as [Hm _].
  rewrite Hm, get_app_fresh by now apply has_false.
  rewrite (addTab_fresh_page _ _ _ Hcap Hfresh Hidle Hnav).
  rewrite (proj1 (switchTab_ids _ _)).
  unfold rendered, Dom.children. cbn [navbarDiv].
  rewrite Hnav, !map_app. cbn [JsMap.get map el_id createTab].
  rewrite String.eqb_refl. repeat split. apply createTabContent_id.
Qed.

Lemma addTab_renders_tab_and_panel_witness :
  rendered (addTab tabsABC (titled "My tab!"))
  = ["lt-tab-a"; "lt-tab-b"; "lt-tab-c"; "lt-tab-mytab"] /\
  JsMap.get (tabContentMap (addTab tabsABC (titled "My tab!"))) "lt-tab-mytab"
  = Some "mytab-container".
Proof.
  assert (Hnav : navbarDiv tabsABC = Some (Dom.children tabsABC))
    by (vm_compute; reflexivity).
  assert (Hcap : capacity_reached tabsABC = false) by (vm_compute; reflexivity).
  assert (Hfresh : JsMap.has (tabContentMap tabsABC)
                     (tabId_of (tabTitle (titled "My tab!"))) = false)
    by (vm_compute; reflexivity).
  pose proof (addTab_renders_tab_and_panel tabsABC (titled "My tab!")
                (Dom.children tabsABC) Hnav Hcap Hfresh I) as (Hr & Hg & _).
  split.
  - rewrite Hr. vm_compute. reflexivity.
  - exact Hg.
Defined.

End PageCalls.
